(** * visionMix: the canvas transform engine

    A shallow embedding of the canvas logic of visionMix:
    - [hooks/useCanvasHistory]: the bounded undo/redo stacks;
    - [utils/projectManager.ts]: the structural check of [loadProject];
    - [App.tsx]: the layer store, the pointer-driven drag/resize handlers,
      layer ordering, and the handlers that snapshot into the history.

    Conventions of the embedding.
    - A JavaScript [number] is an exact real number ([R]); rounding is
      outside the model.  [Math.sqrt], [Math.max] and [Math.min] are [sqrt],
      [Rmax] and [Rmin].  From finite numbers the code can reach an infinity
      or NaN only by a division by zero, and it has two divisions whose
      divisor can be zero, both made when an image is added: the quotient
      stored as [aspectRatio] is a [Quotient], and the quotient passed to
      [Math.min] gets its own case in [initialScaleOf].
    - React state is threaded explicitly: every handler is a function from
      the application state to the next application state, and the updater
      passed to a [setX] call is applied at once.
    - An array is never mutated after it has been handed to React, but the
      code compares arrays by identity ([initialLayers !== layers]); an array
      is therefore a pair of an address and its elements, and each array
      expression that builds a new array takes a fresh address. *)

From Stdlib Require Import Reals Lra String Bool Arith Lia QArith List.
From Stdlib Require Import Permutation.
Import ListNotations.

Local Open Scope R_scope.

Set Warnings "-register-all".

(** ** types.ts *)

(** What [a / b] yields in JavaScript for finite [a] and [b]. *)
Inductive Quotient : Type :=
| Finite (r : R)
| PlusInfinity
| MinusInfinity
| NotANumber.

Definition divide (a b : R) : Quotient :=
  if Req_dec_T b 0 then
    if Req_dec_T a 0 then NotANumber
    else if Rlt_dec 0 a then PlusInfinity else MinusInfinity
  else Finite (a / b).

Record CanvasLayer : Type := mkLayer {
  id : string;
  url : string;
  x : R;
  y : R;
  scale : R;
  rotation : R;
  zIndex : R;
  aspectRatio : Quotient;
  originalWidth : R;
  originalHeight : R
}.

(** ** hooks/useCanvasHistory *)

Module History.

Definition HISTORY_LIMIT : nat := 15.

Section Hook.

Context {A : Type}.

(** The two [useState] cells of the hook; the newest entry is the last one. *)
Record state : Type := mkState {
  history : list A;
  redoStack : list A
}.

Definition init : state := {| history := []; redoStack := [] |}.

(** [newHistory.shift()] drops the first element. *)
Definition shift (l : list A) : list A := tl l.

(** [l.slice(0, -1)] *)
Definition slice_init (l : list A) : list A := removelast l.

(** [l[l.length - 1]]; an index out of range reads [undefined], which is
    [None] here, as is [null]. *)
Definition last_entry (l : list A) : option A := nth_error l (length l - 1).

Definition recordState (layers : A) (s : state) : state :=
  let newHistory := history s ++ [layers] in
  {| history := if (HISTORY_LIMIT <? length newHistory)%nat
                then shift newHistory else newHistory;
     redoStack := [] |}.

Definition undo (currentLayers : A) (s : state) : option A * state :=
  if (length (history s) =? 0)%nat then (None, s)
  else
    let previous := last_entry (history s) in
    let newHistory := slice_init (history s) in
    (previous,
     {| history := newHistory; redoStack := redoStack s ++ [currentLayers] |}).

Definition redo (currentLayers : A) (s : state) : option A * state :=
  if (length (redoStack s) =? 0)%nat then (None, s)
  else
    let next := last_entry (redoStack s) in
    let newRedo := slice_init (redoStack s) in
    (next,
     {| history := history s ++ [currentLayers]; redoStack := newRedo |}).

Definition canUndo (s : state) : bool := (0 <? length (history s))%nat.
Definition canRedo (s : state) : bool := (0 <? length (redoStack s))%nat.

(** A run of [recordState] calls, oldest call first. *)
Definition recordAll (xs : list A) (s : state) : state :=
  fold_left (fun acc layers => recordState layers acc) xs s.

(** [n] calls of [undo] in a row, each with the same current snapshot; the
    results are listed first call first. *)
Fixpoint undoAll (n : nat) (cur : A) (s : state) : list (option A) :=
  match n with
  | O => []
  | S m => let (r, s') := undo cur s in r :: undoAll m cur s'
  end.

(** The [n] newest entries of a stack. *)
Definition newest (n : nat) (l : list A) : list A := skipn (length l - n) l.

(** States of the hook that calls of its three operations can produce. *)
Inductive Reachable : state -> Prop :=
| R_init : Reachable init
| R_record : forall s a, Reachable s -> Reachable (recordState a s)
| R_undo : forall s a, Reachable s -> Reachable (snd (undo a s))
| R_redo : forall s a, Reachable s -> Reachable (snd (redo a s)).

End Hook.

Arguments state A : clear implicits.

End History.

(** ** utils/projectManager.ts *)

Module ProjectManager.

(** What [JSON.parse] returns.  The fields of an object are kept in the
    order of the text; a key that occurs twice reads as its last value. *)
Inductive JSON : Type :=
| JNull
| JBool (b : bool)
| JNum (q : Q)
| JStr (s : string)
| JArr (items : list JSON)
| JObj (fields : list (string * JSON)).

(** Reading a property: [undefined] is [Got None]; reading from [null] throws
    a TypeError. *)
Inductive PropertyRead : Type :=
| Throws
| Got (v : option JSON).

Fixpoint lookupField (key : string) (fields : list (string * JSON))
  : option JSON :=
  match fields with
  | [] => None
  | (k, v) :: rest =>
      match lookupField key rest with
      | Some later => Some later
      | None => if (k =? key)%string then Some v else None
      end
  end.

(** [json.layers]: only an object made by [JSON.parse] can own the key. *)
Definition getProperty (json : JSON) (key : string) : PropertyRead :=
  match json with
  | JNull => Throws
  | JObj fields => Got (lookupField key fields)
  | _ => Got None
  end.

(** JavaScript truthiness of a property value. *)
Definition truthy (v : option JSON) : bool :=
  match v with
  | None => false
  | Some JNull => false
  | Some (JBool b) => b
  | Some (JNum q) => negb (Qeq_bool q 0)
  | Some (JStr s) => negb (s =? "")%string
  | Some (JArr _) => true
  | Some (JObj _) => true
  end.

(** [Array.isArray] *)
Definition isArray (v : option JSON) : bool :=
  match v with
  | Some (JArr _) => true
  | _ => false
  end.

Definition arrayItems (v : option JSON) : list JSON :=
  match v with
  | Some (JArr items) => items
  | _ => []
  end.

(** What the [FileReader] delivers: [onerror], or [onload] with a text on
    which [JSON.parse] either throws ([None]) or returns a value. *)
Inductive FileRead : Type :=
| ReadError
| ReadText (parsed : option JSON).

(** The settled promise of [loadProject]. *)
Inductive LoadResult : Type :=
| Resolved (layers : list JSON)
| Rejected (message : string).

Definition structureError : string := "Invalid .vmix project file structure".
Definition parseError : string := "Failed to parse project file".
Definition readError : string := "Failed to read file".

Definition loadProject (file : FileRead) : LoadResult :=
  match file with
  | ReadError => Rejected readError
  | ReadText None => Rejected parseError
  | ReadText (Some json) =>
      match getProperty json "layers" with
      | Throws => Rejected parseError
      | Got layers =>
          if truthy layers && isArray layers
          then Resolved (arrayItems layers)
          else Rejected structureError
      end
  end.

(** A record with the fields of the [CanvasLayer] interface of [types.ts]:
    two strings and eight numbers. *)
Definition isString (v : option JSON) : bool :=
  match v with Some (JStr _) => true | _ => false end.

Definition isNumber (v : option JSON) : bool :=
  match v with Some (JNum _) => true | _ => false end.

Definition layerShaped (j : JSON) : bool :=
  match j with
  | JObj fields =>
      isString (lookupField "id" fields)
      && isString (lookupField "url" fields)
      && forallb (fun key => isNumber (lookupField key fields))
           ["x"; "y"; "scale"; "rotation"; "zIndex"; "aspectRatio";
            "originalWidth"; "originalHeight"]%string
  | _ => false
  end.

(** The check in the words of the file format: [layers] is present and is
    an array of layer-shaped records. *)
Definition layersOfRecords (json : JSON) : bool :=
  match getProperty json "layers" with
  | Got (Some (JArr items)) => forallb layerShaped items
  | _ => false
  end.

End ProjectManager.

(** ** App.tsx *)

Module App.

Import History ProjectManager.

Definition CANVAS_SIZE : R := 600.
Definition MIN_VISIBLE_PX : R := 40.

(** An array of layers as an object: its identity and its elements. *)
Record LayerArray : Type := mkArray {
  addr : nat;
  elems : list CanvasLayer
}.

Inductive Operation : Type := OpNone | OpDrag | OpResize.

Inductive Direction : Type := Up | Down.

Record PointerEvent : Type := mkPointer {
  clientX : R;
  clientY : R
}.

(** [getBoundingClientRect()] of the canvas element. *)
Record DOMRect : Type := mkRect {
  left : R;
  top : R
}.

Record InteractionStart : Type := mkStart {
  startX : R;
  startY : R;
  initialX : R;
  initialY : R;
  initialScale : R;
  initialDistance : R;
  initialLayers : LayerArray
}.

(** [generateError]: the message and its details (the random reference id,
    the workflow stage and the timer that clears the error are left out). *)
Record AppError : Type := mkError {
  message : string;
  details : string
}.

(** The part of the component state the canvas logic reads and writes.
    [nextAddr] is the identity the next new array will get. *)
Record AppState : Type := mkApp {
  layers : LayerArray;
  selectedLayerId : option string;
  canvasHistory : History.state LayerArray;
  activeOperation : Operation;
  interactionStartRef : InteractionStart;
  canvasRef : option DOMRect;
  error : option AppError;
  nextAddr : nat
}.

Definition initialState : AppState :=
  {| layers := mkArray 0 [];
     selectedLayerId := None;
     canvasHistory := History.init;
     activeOperation := OpNone;
     interactionStartRef := mkStart 0 0 0 0 1 0 (mkArray 1 []);
     canvasRef := None;
     error := None;
     nextAddr := 2 |}.

(** *** State setters *)

(** [setLayers(a)] with an array that already exists. *)
Definition setLayers (a : LayerArray) (s : AppState) : AppState :=
  mkApp a (selectedLayerId s) (canvasHistory s) (activeOperation s)
        (interactionStartRef s) (canvasRef s) (error s) (nextAddr s).

(** [setLayers] with an array built by [map], [filter] or a spread. *)
Definition setNewLayers (l : list CanvasLayer) (s : AppState) : AppState :=
  mkApp (mkArray (nextAddr s) l) (selectedLayerId s) (canvasHistory s)
        (activeOperation s) (interactionStartRef s) (canvasRef s) (error s)
        (S (nextAddr s)).

Definition setSelectedLayerId (sel : option string) (s : AppState)
  : AppState :=
  mkApp (layers s) sel (canvasHistory s) (activeOperation s)
        (interactionStartRef s) (canvasRef s) (error s) (nextAddr s).

Definition setCanvasHistory (h : History.state LayerArray) (s : AppState)
  : AppState :=
  mkApp (layers s) (selectedLayerId s) h (activeOperation s)
        (interactionStartRef s) (canvasRef s) (error s) (nextAddr s).

Definition setActiveOperation (op : Operation) (s : AppState) : AppState :=
  mkApp (layers s) (selectedLayerId s) (canvasHistory s) op
        (interactionStartRef s) (canvasRef s) (error s) (nextAddr s).

Definition setInteractionStart (r : InteractionStart) (s : AppState)
  : AppState :=
  mkApp (layers s) (selectedLayerId s) (canvasHistory s) (activeOperation s)
        r (canvasRef s) (error s) (nextAddr s).

Definition generateError (msg det : string) (s : AppState) : AppState :=
  mkApp (layers s) (selectedLayerId s) (canvasHistory s) (activeOperation s)
        (interactionStartRef s) (canvasRef s) (Some (mkError msg det))
        (nextAddr s).

(** The [recordState] of the hook, on the state of the component. *)
Definition recordState (a : LayerArray) (s : AppState) : AppState :=
  setCanvasHistory (History.recordState a (canvasHistory s)) s.

(** *** Layer updates: [{ ...layer, field: value }] *)

Definition withPosition (l : CanvasLayer) (newX newY : R) : CanvasLayer :=
  mkLayer (id l) (url l) newX newY (scale l) (rotation l) (zIndex l)
          (aspectRatio l) (originalWidth l) (originalHeight l).

Definition withScale (l : CanvasLayer) (newScale : R) : CanvasLayer :=
  mkLayer (id l) (url l) (x l) (y l) newScale (rotation l) (zIndex l)
          (aspectRatio l) (originalWidth l) (originalHeight l).

Definition withZIndex (l : CanvasLayer) (z : R) : CanvasLayer :=
  mkLayer (id l) (url l) (x l) (y l) (scale l) (rotation l) z
          (aspectRatio l) (originalWidth l) (originalHeight l).

Definition hasId (sel : string) (l : CanvasLayer) : bool :=
  (id l =? sel)%string.

(** *** Undo and redo *)

Definition handleUndo (s : AppState) : AppState :=
  let (prev, h) := History.undo (layers s) (canvasHistory s) in
  let s1 := setCanvasHistory h s in
  match prev with
  | Some p =>
      let s2 := setLayers p s1 in
      match selectedLayerId s with
      | Some sel =>
          if negb (sel =? "")%string
             && negb (existsb (hasId sel) (elems p))
          then setSelectedLayerId None s2 else s2
      | None => s2
      end
  | None => s1
  end.

Definition handleRedo (s : AppState) : AppState :=
  let (next, h) := History.redo (layers s) (canvasHistory s) in
  let s1 := setCanvasHistory h s in
  match next with
  | Some n => setLayers n s1
  | None => s1
  end.

(** *** Adding assets *)

(** One decoded image of the file picker: its data URL and natural size,
    with the three [Math.random()] draws of its [onload] handler (the two
    jitters, each in [0, 1), and the id). *)
Record LoadedImage : Type := mkImage {
  dataUrl : string;
  width : R;
  height : R;
  randomX : R;
  randomY : R;
  newId : string
}.

(** [Math.min(1, maxDim / Math.max(img.width, img.height))]; with a divisor
    of zero the quotient is [Infinity], [maxDim] being positive, and
    [Math.min(1, Infinity)] is 1. *)
Definition initialScaleOf (img : LoadedImage) : R :=
  let maxDim := 250 in
  let largest := Rmax (width img) (height img) in
  if Req_dec_T largest 0 then 1 else Rmin 1 (maxDim / largest).

Definition newLayerOf (img : LoadedImage) (prev : list CanvasLayer)
  : CanvasLayer :=
  let scale := initialScaleOf img in
  let jitterX := (randomX img - 0.5) * 40 in
  let jitterY := (randomY img - 0.5) * 40 in
  {| id := newId img;
     url := dataUrl img;
     x := (CANVAS_SIZE / 2) - ((width img * scale) / 2) + jitterX;
     y := (CANVAS_SIZE / 2) - ((height img * scale) / 2) + jitterY;
     scale := scale;
     rotation := 0;
     zIndex := INR (length prev) + 1;
     aspectRatio := divide (width img) (height img);
     originalWidth := width img;
     originalHeight := height img |}.

(** [img.onload] *)
Definition imageLoaded (img : LoadedImage) (s : AppState) : AppState :=
  setSelectedLayerId (Some (newId img))
    (setNewLayers (elems (layers s) ++ [newLayerOf img (elems (layers s))]) s).

(** [handleFileChange]: [files] is [None] when the input has no file list;
    the images are listed in the order in which their loads complete. *)
Definition handleFileChange (files : option (list LoadedImage))
  (s : AppState) : AppState :=
  match files with
  | Some imgs =>
      fold_left (fun acc img => imageLoaded img acc) imgs
                (recordState (layers s) s)
  | None => s
  end.

(** *** Pointer sessions *)

Definition getCanvasCoordinates (e : PointerEvent) (s : AppState) : R * R :=
  match canvasRef s with
  | None => (0, 0)
  | Some rect => (clientX e - left rect, clientY e - top rect)
  end.

Definition handleLayerPointerDown (e : PointerEvent) (layer : CanvasLayer)
  (s : AppState) : AppState :=
  setInteractionStart
    {| startX := clientX e;
       startY := clientY e;
       initialX := x layer;
       initialY := y layer;
       initialScale := scale layer;
       initialDistance := 0;
       initialLayers := layers s |}
    (setActiveOperation OpDrag (setSelectedLayerId (Some (id layer)) s)).

Definition handleResizePointerDown (e : PointerEvent) (layer : CanvasLayer)
  (s : AppState) : AppState :=
  let coords := getCanvasCoordinates e s in
  let dx := fst coords - x layer in
  let dy := snd coords - y layer in
  let dist := sqrt (dx * dx + dy * dy) in
  setInteractionStart
    {| startX := clientX e;
       startY := clientY e;
       initialX := x layer;
       initialY := y layer;
       initialScale := scale layer;
       initialDistance := dist;
       initialLayers := layers s |}
    (setActiveOperation OpResize (setSelectedLayerId (Some (id layer)) s)).

(** The body of the [map] callback of a drag move, for the selected layer. *)
Definition dragged (start : InteractionStart) (dx dy : R)
  (layer : CanvasLayer) : CanvasLayer :=
  let newX := initialX start + dx in
  let newY := initialY start + dy in
  let currentWidth := originalWidth layer * scale layer in
  let currentHeight := originalHeight layer * scale layer in
  let maxX := CANVAS_SIZE - MIN_VISIBLE_PX in
  let minX := MIN_VISIBLE_PX - currentWidth in
  let newX := Rmax minX (Rmin newX maxX) in
  let maxY := CANVAS_SIZE - MIN_VISIBLE_PX in
  let minY := MIN_VISIBLE_PX - currentHeight in
  let newY := Rmax minY (Rmin newY maxY) in
  withPosition layer newX newY.

Definition dragMove (start : InteractionStart) (sel : string)
  (e : PointerEvent) (prev : list CanvasLayer) : list CanvasLayer :=
  let dx := clientX e - startX start in
  let dy := clientY e - startY start in
  map (fun layer => if hasId sel layer then dragged start dx dy layer
                    else layer) prev.

(** [Math.max(0.1, initialScale * (currentDistance / initialDistance))] *)
Definition safeScaleOf (start : InteractionStart) (currentDistance : R) : R :=
  let newScale := initialScale start * (currentDistance / initialDistance start) in
  Rmax 0.1 newScale.

(** The distance from the anchor of [selectedLayer] to the pointer. *)
Definition distanceTo (e : PointerEvent) (selectedLayer : CanvasLayer)
  (s : AppState) : R :=
  let coords := getCanvasCoordinates e s in
  let dx := fst coords - x selectedLayer in
  let dy := snd coords - y selectedLayer in
  sqrt (dx * dx + dy * dy).

Definition resizeMove (sel : string) (safeScale : R)
  (prev : list CanvasLayer) : list CanvasLayer :=
  map (fun layer => if hasId sel layer then withScale layer safeScale
                    else layer) prev.

(** [handleCanvasPointerMove]; [!selectedLayerId] holds of [null] and of
    the empty string. *)
Definition handleCanvasPointerMove (e : PointerEvent) (s : AppState)
  : AppState :=
  match selectedLayerId s with
  | None => s
  | Some sel =>
      if (sel =? "")%string then s
      else
        match activeOperation s with
        | OpDrag =>
            setNewLayers
              (dragMove (interactionStartRef s) sel e (elems (layers s))) s
        | OpResize =>
            match find (hasId sel) (elems (layers s)) with
            | None => s
            | Some selectedLayer =>
                let currentDistance := distanceTo e selectedLayer s in
                if Rlt_dec 0 (initialDistance (interactionStartRef s))
                then
                  setNewLayers
                    (resizeMove sel
                       (safeScaleOf (interactionStartRef s) currentDistance)
                       (elems (layers s))) s
                else s
            end
        | OpNone => s
        end
  end.

(** [initialLayers !== layers]: a comparison of identities. *)
Definition sameArray (a b : LayerArray) : bool := (addr a =? addr b)%nat.

(** [handleCanvasPointerUp], also the handler of pointer-leave. *)
Definition handleCanvasPointerUp (s : AppState) : AppState :=
  let s1 :=
    match activeOperation s with
    | OpNone => s
    | _ =>
        let initial := initialLayers (interactionStartRef s) in
        if negb (sameArray initial (layers s)) then recordState initial s
        else s
    end in
  setActiveOperation OpNone s1.

(** *** Removing, reordering and centering *)

Definition removeLayer (target : string) (s : AppState) : AppState :=
  let s1 := recordState (layers s) s in
  let s2 :=
    setNewLayers (filter (fun l => negb (hasId target l)) (elems (layers s1)))
                 s1 in
  match selectedLayerId s with
  | Some sel => if (sel =? target)%string then setSelectedLayerId None s2
                else s2
  | None => s2
  end.

(** [prev.findIndex(p)]; [None] is the index -1. *)
Fixpoint findIndex (p : CanvasLayer -> bool) (l : list CanvasLayer)
  : option nat :=
  match l with
  | [] => None
  | a :: rest =>
      if p a then Some 0%nat
      else match findIndex p rest with
           | Some i => Some (S i)
           | None => None
           end
  end.

(** [a[i] = v] for an index inside the array. *)
Fixpoint assign {A : Type} (i : nat) (v : A) (l : list A) : list A :=
  match l, i with
  | [], _ => []
  | _ :: rest, O => v :: rest
  | a :: rest, S j => a :: assign j v rest
  end.

(** [[a[i], a[j]] = [a[j], a[i]]]: both reads come before both writes.  The
    guards of [reorderLayer] keep [i] and [j] inside the array. *)
Definition swap {A : Type} (i j : nat) (l : list A) : list A :=
  match nth_error l j, nth_error l i with
  | Some atJ, Some atI => assign j atI (assign i atJ l)
  | _, _ => l
  end.

(** [newLayers.map((l, idx) => ({ ...l, zIndex: idx + 1 }))], from index
    [from]. *)
Fixpoint renumberFrom (from : nat) (l : list CanvasLayer)
  : list CanvasLayer :=
  match l with
  | [] => []
  | a :: rest => withZIndex a (INR from + 1) :: renumberFrom (S from) rest
  end.

Definition renumber (l : list CanvasLayer) : list CanvasLayer :=
  renumberFrom 0 l.

(** The updater that [reorderLayer] passes to [setLayers]; [None] means that
    it returned [prev] itself. *)
Definition reordered (target : string) (direction : Direction)
  (prev : list CanvasLayer) : option (list CanvasLayer) :=
  match findIndex (hasId target) prev with
  | None => None
  | Some index =>
      let newLayers :=
        match direction with
        | Up => if (index <? length prev - 1)%nat
                then swap index (index + 1) prev else prev
        | Down => if (0 <? index)%nat
                  then swap index (index - 1) prev else prev
        end in
      Some (renumber newLayers)
  end.

Definition reorderLayer (target : string) (direction : Direction)
  (s : AppState) : AppState :=
  let s1 := recordState (layers s) s in
  match reordered target direction (elems (layers s1)) with
  | None => s1
  | Some l => setNewLayers l s1
  end.

Definition centerLayer (target : string) (s : AppState) : AppState :=
  let s1 := recordState (layers s) s in
  match find (hasId target) (elems (layers s)) with
  | Some l =>
      setNewLayers
        (map (fun layer =>
                if hasId target layer
                then withPosition layer
                       ((CANVAS_SIZE / 2) - ((originalWidth l * scale l) / 2))
                       ((CANVAS_SIZE / 2) - ((originalHeight l * scale l) / 2))
                else layer)
             (elems (layers s1))) s1
  | None => s1
  end.

(** *** Loading a project *)

Section Load.

(** [loadProject] resolves with [json.layers] typed as [CanvasLayer[]]; the
    type is erased at run time, so how the program later reads an element
    that is no layer record is left to [asLayers]. *)
Variable asLayers : list JSON -> list CanvasLayer.

Definition lastId (l : list CanvasLayer) : option string :=
  option_map id (nth_error l (length l - 1)).

(** [handleLoadProject]: [file] is [None] when no file was chosen. *)
Definition handleLoadProject (file : option FileRead) (s : AppState)
  : AppState :=
  match file with
  | None => s
  | Some f =>
      let s1 := recordState (layers s) s in
      match loadProject f with
      | Resolved items =>
          let loadedLayers := asLayers items in
          let s2 := setNewLayers loadedLayers s1 in
          if (0 <? length loadedLayers)%nat
          then setSelectedLayerId (lastId loadedLayers) s2
          else s2
      | Rejected msg => generateError "Load Failed" msg s1
      end
  end.

End Load.

(** *** Runs of handlers *)

Definition pointerMoves (es : list PointerEvent) (s : AppState) : AppState :=
  fold_left (fun acc e => handleCanvasPointerMove e acc) es s.

(** A drag gesture: pointer-down on a layer body, the moves, pointer-up. *)
Definition dragGesture (down : PointerEvent) (layer : CanvasLayer)
  (moves : list PointerEvent) (s : AppState) : AppState :=
  handleCanvasPointerUp (pointerMoves moves (handleLayerPointerDown down layer s)).

(** A resize gesture: pointer-down on the resize handle, the moves,
    pointer-up. *)
Definition resizeGesture (down : PointerEvent) (layer : CanvasLayer)
  (moves : list PointerEvent) (s : AppState) : AppState :=
  handleCanvasPointerUp (pointerMoves moves (handleResizePointerDown down layer s)).

(** The z-indices of a layer set are [1..N] in array order. *)
Definition denseFrom (from : nat) (l : list CanvasLayer) : Prop :=
  map zIndex l = map (fun i => INR i + 1) (seq from (length l)).

Definition dense (l : list CanvasLayer) : Prop := denseFrom 0 l.

(** The layers a pointer move acts on. *)
Definition isSelected (s : AppState) (l : CanvasLayer) : bool :=
  match selectedLayerId s with
  | Some sel => negb (sel =? "")%string && hasId sel l
  | None => false
  end.

(** Two layers that agree on every field but [scale]. *)
Definition sameButScale (l l' : CanvasLayer) : Prop :=
  id l' = id l /\ url l' = url l /\ x l' = x l /\ y l' = y l
  /\ rotation l' = rotation l /\ zIndex l' = zIndex l
  /\ aspectRatio l' = aspectRatio l
  /\ originalWidth l' = originalWidth l
  /\ originalHeight l' = originalHeight l.

(** The live array is older than every array still to be built. *)
Definition fresh (s : AppState) : Prop := (addr (layers s) < nextAddr s)%nat.

(** The rendered footprint of a layer. *)
Definition footprintWidth (l : CanvasLayer) : R := originalWidth l * scale l.
Definition footprintHeight (l : CanvasLayer) : R := originalHeight l * scale l.

End App.

(** ** Sample inputs *)

Module Samples.

Import History ProjectManager App.

(** A layer of natural size [w] x [h] at position ([px], [py]). *)
Definition layerAt (name : string) (px py sc z w h : R) : CanvasLayer :=
  mkLayer name "data:," px py sc 0 z (divide w h) w h.

(** The component with the canvas element mounted at the page origin. *)
Definition mounted (l : list CanvasLayer) : AppState :=
  mkApp (mkArray 0 l) None History.init OpNone
        (mkStart 0 0 0 0 1 0 (mkArray 1 [])) (Some (mkRect 0 0)) None 2.

Definition square100 : CanvasLayer := layerAt "a" 100 100 1 1 100 100.


Definition atOrigin : CanvasLayer := layerAt "a" 0 0 1 1 100 100.

Definition beside : CanvasLayer := layerAt "b" 300 300 1 2 50 50.

Definition image (name : string) (w h : R) : LoadedImage :=
  mkImage "data:," w h 0.5 0.5 name.

(** Three images added to the empty canvas. *)
Definition threeLayers : AppState :=
  handleFileChange
    (Some [image "a" 200 200; image "b" 200 200; image "c" 200 200])
    (mounted []).

(** The first of the three layers removed. *)
Definition afterRemove : AppState := removeLayer "a" threeLayers.

(** Sessions just after pointer-down. *)
Definition dragSession : AppState :=
  handleLayerPointerDown (mkPointer 600 600) square100 (mounted [square100]).


Definition resizeSession : AppState :=
  handleResizePointerDown (mkPointer 30 40) atOrigin (mounted [atOrigin]).

Definition resizeBeside : AppState :=
  handleResizePointerDown (mkPointer 30 40) atOrigin
    (mounted [atOrigin; beside]).

(** The text [{"layers": [1]}]. *)
Definition numbersFile : JSON := JObj [("layers"%string, JArr [JNum 1])].

(** The text [{"version": "1.0"}]. *)
Definition noLayersFile : JSON := JObj [("version"%string, JStr "1.0")].

End Samples.

(** ** App.tsx, continued, and components/LayerPanel.tsx *)

Module Canvas.

Import History ProjectManager App.

(** Two layers that agree on every field but [x] and [y]. *)
Definition sameButPosition (l l' : CanvasLayer) : Prop :=
  id l' = id l /\ url l' = url l /\ scale l' = scale l
  /\ rotation l' = rotation l /\ zIndex l' = zIndex l
  /\ aspectRatio l' = aspectRatio l
  /\ originalWidth l' = originalWidth l
  /\ originalHeight l' = originalHeight l.

(** Two layers that agree on every field but [zIndex]. *)
Definition sameButZIndex (l l' : CanvasLayer) : Prop :=
  withZIndex l' 0 = withZIndex l 0.

(** *** [updateLayer] *)

(** [Partial<CanvasLayer>]: the fields an update carries. *)
Record PartialLayer : Type := mkPartial {
  pId : option string;
  pUrl : option string;
  pX : option R;
  pY : option R;
  pScale : option R;
  pRotation : option R;
  pZIndex : option R;
  pAspectRatio : option Quotient;
  pOriginalWidth : option R;
  pOriginalHeight : option R
}.

Definition orElse {T : Type} (o : option T) (d : T) : T :=
  match o with Some v => v | None => d end.

(** [{ ...l, ...updates }] *)
Definition merge (l : CanvasLayer) (updates : PartialLayer) : CanvasLayer :=
  {| id := orElse (pId updates) (id l);
     url := orElse (pUrl updates) (url l);
     x := orElse (pX updates) (x l);
     y := orElse (pY updates) (y l);
     scale := orElse (pScale updates) (scale l);
     rotation := orElse (pRotation updates) (rotation l);
     zIndex := orElse (pZIndex updates) (zIndex l);
     aspectRatio := orElse (pAspectRatio updates) (aspectRatio l);
     originalWidth := orElse (pOriginalWidth updates) (originalWidth l);
     originalHeight := orElse (pOriginalHeight updates) (originalHeight l) |}.

Definition updateLayer (target : string) (updates : PartialLayer)
  (s : AppState) : AppState :=
  setNewLayers
    (map (fun l => if hasId target l then merge l updates else l)
         (elems (layers s))) s.

Definition noUpdates : PartialLayer :=
  mkPartial None None None None None None None None None None.

(** [{ scale: v }], the update of the scale slider. *)
Definition scaleUpdate (v : R) : PartialLayer :=
  mkPartial None None None None (Some v) None None None None None.

(** [{ rotation: v }], the update of the rotation slider. *)
Definition rotationUpdate (v : R) : PartialLayer :=
  mkPartial None None None None None (Some v) None None None None.

(** *** [renderCanvasToImage] *)

Definition OUTPUT_SIZE : R := 1024.

(** What is drawn for one layer between [ctx.save()] and [ctx.restore()]:
    the arguments of [translate], [rotate] and [drawImage]. *)
Record DrawCall : Type := mkDraw {
  source : string;
  translateX : R;
  translateY : R;
  angle : R;
  drawX : R;
  drawY : R;
  drawWidth : R;
  drawHeight : R
}.

Definition drawCallOf (layer : CanvasLayer) : DrawCall :=
  let ratio := OUTPUT_SIZE / CANVAS_SIZE in
  {| source := url layer;
     translateX := (x layer + (originalWidth layer * scale layer) / 2) * ratio;
     translateY := (y layer + (originalHeight layer * scale layer) / 2) * ratio;
     angle := (rotation layer * PI) / 180;
     drawX := (- originalWidth layer * scale layer * ratio) / 2;
     drawY := (- originalHeight layer * scale layer * ratio) / 2;
     drawWidth := originalWidth layer * scale layer * ratio;
     drawHeight := originalHeight layer * scale layer * ratio |}.

(** The draw calls of [renderCanvasToImage] on the white 1024 x 1024
    canvas, in the order in which they are issued, when the 2D context is
    available and every image loads. *)
Definition renderCanvasToImage (s : AppState) : list DrawCall :=
  map drawCallOf (elems (layers s)).

(** Where [translate] followed by [rotate] puts the point ([u], [v]) of the
    drawing frame on the output canvas. *)
Definition placed (c : DrawCall) (u v : R) : R * R :=
  (translateX c + (u * cos (angle c) - v * sin (angle c)),
   translateY c + (u * sin (angle c) + v * cos (angle c))).

(** *** [LayerPanel] *)

(** One row of the panel: its layer, the number in its label, and whether
    it shows the two reorder buttons. *)
Record PanelRow : Type := mkRow {
  rowLayer : CanvasLayer;
  rowLabel : nat;
  rowButtons : bool
}.

(** [list.map((item, index) => f item index)], counting from [from]. *)
Fixpoint mapIndexed {T U : Type} (f : T -> nat -> U) (from : nat)
  (l : list T) : list U :=
  match l with
  | [] => []
  | a :: rest => f a from :: mapIndexed f (S from) rest
  end.

Definition isSelectedId (sel : option string) (l : CanvasLayer) : bool :=
  match sel with
  | Some name => (name =? id l)%string
  | None => false
  end.

(** The rows of the panel, first row first; [None] when the component
    renders nothing. *)
Definition LayerPanel (layers : list CanvasLayer) (sel : option string)
  : option (list PanelRow) :=
  if (length layers =? 0)%nat then None
  else
    Some (mapIndexed
            (fun layer index =>
               mkRow layer (length layers - index) (isSelectedId sel layer))
            0 (rev layers)).

(** *** Runs of handlers *)

Definition undoTimes (n : nat) (s : AppState) : AppState :=
  Nat.iter n handleUndo s.

Definition redoTimes (n : nat) (s : AppState) : AppState :=
  Nat.iter n handleRedo s.

(** Every layer has an id of its own. *)
Definition distinctIds (l : list CanvasLayer) : Prop := NoDup (map id l).

End Canvas.

(** * Properties of the history hook *)

Module HistoryFacts.

Import History.

Section Facts.

Context {A : Type}.

Implicit Types (s : state A) (a : A) (l xs : list A).

Lemma last_entry_app l a : last_entry (l ++ [a]) = Some a.
Proof.
  unfold last_entry. rewrite length_app, Nat.add_sub. simpl.
  rewrite nth_error_app2 by lia. now rewrite Nat.sub_diag.
Qed.

Lemma slice_init_app l a : slice_init (l ++ [a]) = l.
Proof. apply removelast_last. Qed.

Lemma nonempty_snoc l : l <> [] -> exists l' a, l = l' ++ [a].
Proof.
  intros H. destruct (exists_last H) as [l' [a ->]]. now exists l', a.
Qed.

Lemma newest_all n l : (length l <= n)%nat -> newest n l = l.
Proof.
  intros H. unfold newest. replace (length l - n)%nat with 0%nat by lia.
  reflexivity.
Qed.

Lemma newest_length n l : (length (newest n l) <= n)%nat.
Proof. unfold newest. rewrite length_skipn. lia. Qed.

Lemma newest_app n l xs : newest n (newest n l ++ xs) = newest n (l ++ xs).
Proof.
  unfold newest.
  assert (E : skipn (length l - n) l ++ xs = skipn (length l - n) (l ++ xs)).
  { rewrite skipn_app.
    replace (length l - n - length l)%nat with 0%nat by lia. reflexivity. }
  rewrite E, skipn_skipn. f_equal.
  rewrite length_skipn, !length_app. lia.
Qed.

Lemma recordState_history a s :
  (length (history s) <= HISTORY_LIMIT)%nat ->
  history (recordState a s) = newest HISTORY_LIMIT (history s ++ [a]).
Proof.
  intros H. unfold recordState, shift. simpl.
  destruct (Nat.ltb_spec HISTORY_LIMIT (length (history s ++ [a]))) as [L|L].
  - rewrite length_app in L. simpl in L.
    unfold newest. rewrite length_app. simpl.
    replace (length (history s) + 1 - HISTORY_LIMIT)%nat with 1%nat by lia.
    reflexivity.
  - now rewrite newest_all.
Qed.

Lemma recordState_length a s :
  (length (history s) <= HISTORY_LIMIT)%nat ->
  (length (history (recordState a s)) <= HISTORY_LIMIT)%nat.
Proof. intros H. rewrite recordState_history by assumption. apply newest_length. Qed.

Lemma recordAll_history xs : forall s,
  (length (history s) <= HISTORY_LIMIT)%nat ->
  history (recordAll xs s) = newest HISTORY_LIMIT (history s ++ xs).
Proof.
  induction xs as [|a xs IH]; intros s H.
  - simpl. rewrite app_nil_r. symmetry. now apply newest_all.
  - change (recordAll (a :: xs) s) with (recordAll xs (recordState a s)).
    rewrite IH by now apply recordState_length.
    rewrite recordState_history by assumption.
    rewrite newest_app, <- app_assoc. reflexivity.
Qed.

(** The two stacks together never hold more than [HISTORY_LIMIT] entries. *)
Lemma Reachable_bound s :
  Reachable s -> (length (history s) + length (redoStack s) <= HISTORY_LIMIT)%nat.
Proof.
  induction 1 as [|s a _ IH|s a _ IH|s a _ IH].
  - simpl. unfold HISTORY_LIMIT. lia.
  - assert (L := recordState_length a s). simpl in *. lia.
  - unfold undo. destruct (Nat.eqb_spec (length (history s)) 0) as [E|E];
      simpl; [assumption|].
    unfold slice_init. rewrite removelast_firstn_len, length_firstn, length_app.
    simpl. lia.
  - unfold redo. destruct (Nat.eqb_spec (length (redoStack s)) 0) as [E|E];
      simpl; [assumption|].
    unfold slice_init. rewrite removelast_firstn_len, length_firstn, length_app.
    simpl. lia.
Qed.

Lemma Reachable_recordAll xs : forall s, Reachable s -> Reachable (recordAll xs s).
Proof.
  induction xs as [|a xs IH]; intros s H; [exact H|].
  apply (IH (recordState a s)). now constructor.
Qed.

Lemma undo_snoc l r p cur :
  undo cur (mkState (l ++ [p]) r) = (Some p, mkState l (r ++ [cur])).
Proof.
  unfold undo. simpl history. simpl redoStack.
  rewrite last_entry_app, slice_init_app.
  destruct (Nat.eqb_spec (length (l ++ [p])) 0) as [E|E]; [|reflexivity].
  rewrite length_app in E. simpl in E. lia.
Qed.

Lemma redo_snoc l r n cur :
  redo cur (mkState l (r ++ [n])) = (Some n, mkState (l ++ [cur]) r).
Proof.
  unfold redo. simpl history. simpl redoStack.
  rewrite last_entry_app, slice_init_app.
  destruct (Nat.eqb_spec (length (r ++ [n])) 0) as [E|E]; [|reflexivity].
  rewrite length_app in E. simpl in E. lia.
Qed.

End Facts.

(** [C1] From every state the hook can reach, any run of [recordState] calls
    leaves at most [HISTORY_LIMIT] = 15 past entries, and these are the 15
    newest of the old past entries followed by the recorded ones; a call on
    a full stack drops the oldest entry and appends the new one.  The
    function is total: no call fails. *)
Theorem recordState_keeps_newest (A : Type) (s : state A) (xs : list A) :
  Reachable s ->
  (length (history (recordAll xs s)) <= HISTORY_LIMIT)%nat
  /\ history (recordAll xs s) = newest HISTORY_LIMIT (history s ++ xs)
  /\ (forall a, length (history s) = HISTORY_LIMIT ->
       history (recordState a s) = tl (history s) ++ [a]).
Proof.
  intros Hs. pose proof (Reachable_bound s Hs) as B.
  assert (L : (length (history s) <= HISTORY_LIMIT)%nat) by lia.
  split; [|split].
  - rewrite recordAll_history by assumption. apply newest_length.
  - now apply recordAll_history.
  - intros a E. unfold recordState, shift. simpl.
    rewrite length_app, E. simpl.
    destruct (history s); [discriminate E | reflexivity].
Qed.

Lemma recordState_keeps_newest_witness :
  Reachable (@init nat)
  /\ history (recordAll (seq 1 16) (@init nat)) = seq 2 15.
Proof.
  split; [constructor|].
  destruct (recordState_keeps_newest nat init (seq 1 16) (R_init)) as [_ [E _]].
  rewrite E. reflexivity.
Defined.

(** Sixteen records on the empty hook, then sixteen undos: the entries come
    back newest first, 16 down to 2, and the sixteenth undo returns null. *)
Example sixteen_records_then_undo :
  undoAll 16 0%nat (recordAll (seq 1 16) init)
  = map Some (rev (seq 2 15)) ++ [None].
Proof. reflexivity. Qed.

(** [C2] When the past stack is not empty, [undo] on the current snapshot
    returns an entry, and [redo] on that entry returns the snapshot and puts
    both stacks back as they were; and the same with [redo] first, when the
    future stack is not empty. *)
Theorem undo_redo_roundtrip (A : Type) (s : state A) (cur : A) :
  (history s <> [] ->
   exists prev s1, undo cur s = (Some prev, s1) /\ redo prev s1 = (Some cur, s))
  /\ (redoStack s <> [] ->
      exists next s1, redo cur s = (Some next, s1) /\ undo next s1 = (Some cur, s)).
Proof.
  destruct s as [h r]. simpl. split; intros H.
  - destruct (nonempty_snoc h H) as [h' [p ->]].
    exists p, (mkState h' (r ++ [cur])). split.
    + apply undo_snoc.
    + apply redo_snoc.
  - destruct (nonempty_snoc r H) as [r' [n ->]].
    exists n, (mkState (h ++ [cur]) r'). split.
    + apply redo_snoc.
    + apply undo_snoc.
Qed.

Lemma undo_redo_roundtrip_witness :
  (exists prev s1, undo 9%nat (mkState [1; 2]%nat [7]%nat) = (Some prev, s1)
                   /\ redo prev s1 = (Some 9%nat, mkState [1; 2]%nat [7]%nat))
  /\ (exists next s1, redo 9%nat (mkState [1; 2]%nat [7]%nat) = (Some next, s1)
                      /\ undo next s1 = (Some 9%nat, mkState [1; 2]%nat [7]%nat)).
Proof.
  destruct (undo_redo_roundtrip nat (mkState [1; 2]%nat [7]%nat) 9%nat) as [U D].
  split; [apply U | apply D]; simpl; discriminate.
Defined.

End HistoryFacts.

(** * Properties of the canvas handlers *)

Module AppFacts.

Import History ProjectManager App Samples HistoryFacts.

Ltac minmax := unfold Rmax, Rmin; repeat destruct (Rle_dec _ _); lra.

(** ** Recording *)

(** [C3] [recordState] leaves the redo stack empty whatever it held, and so
    does every handler that records: removing, reordering and centering a
    layer, adding assets, and a run of records. *)
Theorem recordState_clears_redo (A : Type) (h : History.state A) (a : A)
  (s : AppState) (arr : LayerArray) (target : string) (d : Direction) :
  redoStack (History.recordState a h) = []
  /\ canRedo (History.recordState a h) = false
  /\ redoStack (canvasHistory (App.recordState arr s)) = []
  /\ redoStack (canvasHistory (removeLayer target s)) = []
  /\ redoStack (canvasHistory (reorderLayer target d s)) = []
  /\ redoStack (canvasHistory (centerLayer target s)) = [].
Proof.
  repeat split.
  - unfold removeLayer. destruct (selectedLayerId s) as [sel|]; [|reflexivity].
    destruct (sel =? target)%string; reflexivity.
  - unfold reorderLayer.
    destruct (reordered target d _); reflexivity.
  - unfold centerLayer. destruct (find _ _); reflexivity.
Qed.

Example recordState_clears_nonempty_redo :
  redoStack (History.recordState 5%nat (mkState [1; 2]%nat [3; 4]%nat)) = [].
Proof. reflexivity. Qed.

(** ** Dragging *)

Lemma dragged_bounds start dx dy l :
  MIN_VISIBLE_PX - footprintWidth l <= x (dragged start dx dy l)
  /\ MIN_VISIBLE_PX - footprintHeight l <= y (dragged start dx dy l).
Proof.
  unfold dragged, footprintWidth, footprintHeight. simpl. split; apply Rmax_l.
Qed.

Lemma dragged_upper_x start dx dy l :
  MIN_VISIBLE_PX - footprintWidth l <= CANVAS_SIZE - MIN_VISIBLE_PX ->
  x (dragged start dx dy l) <= CANVAS_SIZE - MIN_VISIBLE_PX.
Proof.
  unfold dragged, footprintWidth. simpl. intros H.
  apply Rmax_lub; [exact H | apply Rmin_r].
Qed.

Lemma dragged_upper_y start dx dy l :
  MIN_VISIBLE_PX - footprintHeight l <= CANVAS_SIZE - MIN_VISIBLE_PX ->
  y (dragged start dx dy l) <= CANVAS_SIZE - MIN_VISIBLE_PX.
Proof.
  unfold dragged, footprintHeight. simpl. intros H.
  apply Rmax_lub; [exact H | apply Rmin_r].
Qed.

Lemma dragged_footprint start dx dy l :
  footprintWidth (dragged start dx dy l) = footprintWidth l
  /\ footprintHeight (dragged start dx dy l) = footprintHeight l.
Proof. split; reflexivity. Qed.

Lemma Forall2_map_same {A : Type} (P : A -> A -> Prop) (f : A -> A)
  (l : list A) :
  (forall a, In a l -> P a (f a)) -> Forall2 P l (map f l).
Proof.
  induction l as [|a l IH]; intros H; simpl; constructor.
  - apply H. now left.
  - apply IH. intros b Hb. apply H. now right.
Qed.

Lemma move_drag e s sel :
  activeOperation s = OpDrag -> selectedLayerId s = Some sel -> sel <> ""%string ->
  handleCanvasPointerMove e s
  = setNewLayers (dragMove (interactionStartRef s) sel e (elems (layers s))) s.
Proof.
  intros Hop Hsel Hne. unfold handleCanvasPointerMove. rewrite Hsel, Hop.
  destruct (String.eqb_spec sel ""); [contradiction | reflexivity].
Qed.




(** ** Resizing *)

Lemma move_resize e s sel selectedLayer :
  activeOperation s = OpResize -> selectedLayerId s = Some sel ->
  sel <> ""%string ->
  find (hasId sel) (elems (layers s)) = Some selectedLayer ->
  0 < initialDistance (interactionStartRef s) ->
  handleCanvasPointerMove e s
  = setNewLayers
      (resizeMove sel
         (safeScaleOf (interactionStartRef s) (distanceTo e selectedLayer s))
         (elems (layers s))) s.
Proof.
  intros Hop Hsel Hne Hfind Hpos. unfold handleCanvasPointerMove.
  rewrite Hsel, Hop, Hfind.
  destruct (String.eqb_spec sel ""); [contradiction|].
  destruct (Rlt_dec 0 _); [reflexivity | contradiction].
Qed.

Lemma move_resize_idle e s :
  activeOperation s = OpResize ->
  ~ 0 < initialDistance (interactionStartRef s) ->
  handleCanvasPointerMove e s = s.
Proof.
  intros Hop Hz. unfold handleCanvasPointerMove. rewrite Hop.
  destruct (selectedLayerId s) as [sel|]; [|reflexivity].
  destruct (sel =? "")%string; [reflexivity|].
  destruct (find _ _); [|reflexivity].
  destruct (Rlt_dec 0 _); [contradiction | reflexivity].
Qed.

Lemma pointerMoves_resize_idle es s :
  activeOperation s = OpResize ->
  ~ 0 < initialDistance (interactionStartRef s) ->
  pointerMoves es s = s.
Proof.
  intros Hop Hz. induction es as [|e es IH]; [reflexivity|].
  unfold pointerMoves in *. simpl.
  rewrite (move_resize_idle e s Hop Hz). exact IH.
Qed.

Lemma sqrt_hypotenuse a b c : 0 <= c -> a * a + b * b = c * c ->
  sqrt (a * a + b * b) = c.
Proof. intros Hc E. rewrite E. now apply sqrt_square. Qed.

(** [C5] In a resize session, pointer-down on the handle records the radial
    distance from the layer's top-left anchor and the layer's scale.  A move
    with start distance above zero gives every selected layer the scale
    [max(0.1, startScale * (currentDistance / startDistance))]; with start
    distance zero no run of moves changes anything.  Start distance 50,
    start scale 1 and current distance 25 give scale 0.5. *)
Theorem resize_move_scale (e : PointerEvent) (s : AppState) (sel : string)
  (selectedLayer : CanvasLayer) :
  activeOperation s = OpResize ->
  selectedLayerId s = Some sel ->
  sel <> ""%string ->
  find (hasId sel) (elems (layers s)) = Some selectedLayer ->
  let startScale := initialScale (interactionStartRef s) in
  let startDistance := initialDistance (interactionStartRef s) in
  let currentDistance := distanceTo e selectedLayer s in
  (forall down layer s0,
      let start := interactionStartRef (handleResizePointerDown down layer s0) in
      initialDistance start = distanceTo down layer s0
      /\ initialScale start = scale layer
      /\ 0 <= initialDistance start)
  /\ (0 < startDistance ->
      Forall2
        (fun l l' =>
           if hasId sel l
           then scale l' = Rmax 0.1 (startScale * (currentDistance / startDistance))
           else l' = l)
        (elems (layers s)) (elems (layers (handleCanvasPointerMove e s))))
  /\ (startDistance = 0 -> forall es, pointerMoves es s = s)
  /\ (startDistance = 50 -> startScale = 1 -> currentDistance = 25 ->
      Forall2 (fun l l' => if hasId sel l then scale l' = 0.5 else l' = l)
        (elems (layers s)) (elems (layers (handleCanvasPointerMove e s)))).
Proof.
  intros Hop Hsel Hne Hfind startScale startDistance currentDistance.
  split; [|split; [|split]].
  - intros down layer s0 start. repeat split. apply sqrt_pos.
  - intros Hpos. rewrite (move_resize e s sel selectedLayer) by assumption.
    simpl. unfold resizeMove. apply Forall2_map_same. intros l _.
    destruct (hasId sel l); reflexivity.
  - intros Hz es. apply pointerMoves_resize_idle; [assumption|].
    fold startDistance. lra.
  - intros Hd Hs Hc.
    assert (Hpos : 0 < initialDistance (interactionStartRef s))
      by (fold startDistance; lra).
    rewrite (move_resize e s sel selectedLayer) by assumption.
    simpl. unfold resizeMove. apply Forall2_map_same. intros l _.
    destruct (hasId sel l); [|reflexivity].
    simpl. unfold safeScaleOf. fold startScale startDistance currentDistance.
    rewrite Hd, Hs, Hc. minmax.
Qed.

Lemma resize_move_scale_witness :
  exists l',
    elems (layers (handleCanvasPointerMove (mkPointer 15 20) resizeSession))
    = [l']
    /\ scale l' = 0.5.
Proof.
  set (s := resizeSession).
  assert (Hne : "a"%string <> ""%string) by discriminate.
  destruct (resize_move_scale (mkPointer 15 20) s "a" atOrigin
              eq_refl eq_refl Hne eq_refl) as (_ & _ & _ & Sc).
  assert (D0 : initialDistance (interactionStartRef s) = 50).
  { simpl. apply sqrt_hypotenuse; lra. }
  assert (D1 : distanceTo (mkPointer 15 20) atOrigin s = 25).
  { unfold distanceTo. simpl. apply sqrt_hypotenuse; lra. }
  specialize (Sc D0 eq_refl D1).
  assert (Hpos : 0 < initialDistance (interactionStartRef s)) by lra.
  rewrite (move_resize (mkPointer 15 20) s "a" atOrigin eq_refl eq_refl Hne
             eq_refl Hpos) in *.
  exists (withScale atOrigin
            (safeScaleOf (interactionStartRef s)
               (distanceTo (mkPointer 15 20) atOrigin s))).
  split; [reflexivity|].
  change (elems (layers s)) with [atOrigin] in Sc.
  inversion Sc as [|l l' ls ls' P _]; subst.
  change (hasId "a" atOrigin) with true in P. exact P.
Defined.

Lemma Forall2_same {A : Type} (P : A -> A -> Prop) (l : list A) :
  (forall a, P a a) -> Forall2 P l l.
Proof. intros H. induction l; constructor; auto. Qed.

Lemma sameButScale_refl l : sameButScale l l.
Proof. repeat split. Qed.

Lemma sameButScale_withScale l v : sameButScale l (withScale l v).
Proof. repeat split. Qed.

(** A pointer move writes nothing but the layer array. *)
Lemma move_preserves e s :
  selectedLayerId (handleCanvasPointerMove e s) = selectedLayerId s
  /\ canvasHistory (handleCanvasPointerMove e s) = canvasHistory s
  /\ activeOperation (handleCanvasPointerMove e s) = activeOperation s
  /\ interactionStartRef (handleCanvasPointerMove e s) = interactionStartRef s
  /\ canvasRef (handleCanvasPointerMove e s) = canvasRef s
  /\ error (handleCanvasPointerMove e s) = error s.
Proof.
  unfold handleCanvasPointerMove.
  destruct (selectedLayerId s) as [sel|] eqn:Hsel; [|now rewrite Hsel].
  destruct (sel =? "")%string; [now rewrite Hsel|].
  destruct (activeOperation s) eqn:Hop; [now rewrite Hsel, Hop | simpl; auto 10 |].
  destruct (find _ _); [|now rewrite Hsel, Hop].
  destruct (Rlt_dec 0 _); [simpl; auto 10 | now rewrite Hsel, Hop].
Qed.

(** [C10] A resize move leaves every field but [scale] of every layer as it
    was, leaves every layer it does not act on as it was, and writes no
    other part of the state. *)
Theorem resize_move_frame (e : PointerEvent) (s : AppState) :
  activeOperation s = OpResize ->
  Forall2 (fun l l' => sameButScale l l' /\ (isSelected s l = false -> l' = l))
    (elems (layers s)) (elems (layers (handleCanvasPointerMove e s)))
  /\ selectedLayerId (handleCanvasPointerMove e s) = selectedLayerId s
  /\ canvasHistory (handleCanvasPointerMove e s) = canvasHistory s
  /\ activeOperation (handleCanvasPointerMove e s) = activeOperation s
  /\ interactionStartRef (handleCanvasPointerMove e s) = interactionStartRef s.
Proof.
  intros Hop. split.
  2: { destruct (move_preserves e s) as (A & B & C & D & _). auto. }
  assert (Same : Forall2
            (fun l l' => sameButScale l l' /\ (isSelected s l = false -> l' = l))
            (elems (layers s)) (elems (layers s))).
  { apply Forall2_same. intros a. split; [apply sameButScale_refl | reflexivity]. }
  unfold handleCanvasPointerMove, isSelected in *. rewrite Hop.
  destruct (selectedLayerId s) as [sel|]; [|exact Same].
  destruct (sel =? "")%string; [exact Same|].
  destruct (find _ _); [|exact Same].
  destruct (Rlt_dec 0 _); [|exact Same].
  simpl. unfold resizeMove. apply Forall2_map_same. intros l _.
  destruct (hasId sel l); split.
  - apply sameButScale_withScale.
  - discriminate.
  - apply sameButScale_refl.
  - reflexivity.
Qed.

Lemma resize_move_frame_witness :
  Forall2
    (fun l l' =>
       sameButScale l l' /\ (isSelected resizeBeside l = false -> l' = l))
    (elems (layers resizeBeside))
    (elems (layers (handleCanvasPointerMove (mkPointer 15 20) resizeBeside))).
Proof.
  apply (resize_move_frame (mkPointer 15 20) resizeBeside). reflexivity.
Defined.

(** ** Sessions and the history *)

Lemma pointerMoves_preserves es : forall s,
  selectedLayerId (pointerMoves es s) = selectedLayerId s
  /\ canvasHistory (pointerMoves es s) = canvasHistory s
  /\ activeOperation (pointerMoves es s) = activeOperation s
  /\ interactionStartRef (pointerMoves es s) = interactionStartRef s.
Proof.
  induction es as [|e es IH]; intros s; [simpl; auto|].
  change (pointerMoves (e :: es) s)
    with (pointerMoves es (handleCanvasPointerMove e s)).
  destruct (IH (handleCanvasPointerMove e s)) as (A & B & C & D).
  destruct (move_preserves e s) as (A' & B' & C' & D' & _).
  rewrite A, B, C, D. auto.
Qed.

(** Every drag move on a selected layer builds a new array. *)
Lemma drag_moves_addr es : forall s sel,
  activeOperation s = OpDrag -> selectedLayerId s = Some sel ->
  sel <> ""%string -> es <> [] ->
  (nextAddr s <= addr (layers (pointerMoves es s)))%nat.
Proof.
  induction es as [|e es IH]; intros s sel Hop Hsel Hne Hes; [contradiction|].
  change (pointerMoves (e :: es) s)
    with (pointerMoves es (handleCanvasPointerMove e s)).
  destruct (move_preserves e s) as (A & _ & C & _).
  pose proof (move_drag e s sel Hop Hsel Hne) as M.
  destruct es as [|e' es'].
  - simpl. rewrite M. simpl. lia.
  - assert (L : (nextAddr (handleCanvasPointerMove e s)
                 <= addr (layers (pointerMoves (e' :: es')
                                    (handleCanvasPointerMove e s))))%nat).
    { apply (IH _ sel); [congruence | congruence | assumption | discriminate]. }
    assert (N : nextAddr (handleCanvasPointerMove e s) = S (nextAddr s))
      by (rewrite M; reflexivity).
    lia.
Qed.

Lemma pointerUp_layers s : layers (handleCanvasPointerUp s) = layers s.
Proof.
  unfold handleCanvasPointerUp.
  destruct (activeOperation s); [reflexivity| |];
    destruct (negb _); reflexivity.
Qed.

Lemma pointerUp_changed s :
  activeOperation s <> OpNone ->
  sameArray (initialLayers (interactionStartRef s)) (layers s) = false ->
  canvasHistory (handleCanvasPointerUp s)
  = History.recordState (initialLayers (interactionStartRef s)) (canvasHistory s).
Proof.
  intros Hop Hdiff. unfold handleCanvasPointerUp. rewrite Hdiff.
  destruct (activeOperation s); [contradiction | reflexivity | reflexivity].
Qed.

Lemma pointerUp_unchanged s :
  activeOperation s = OpNone
  \/ sameArray (initialLayers (interactionStartRef s)) (layers s) = true ->
  canvasHistory (handleCanvasPointerUp s) = canvasHistory s.
Proof.
  intros H. unfold handleCanvasPointerUp.
  destruct (activeOperation s); [reflexivity| |];
    (destruct H as [H|H]; [discriminate | rewrite H; reflexivity]).
Qed.

Lemma pointerUp_idle s : activeOperation (handleCanvasPointerUp s) = OpNone.
Proof. reflexivity. Qed.

(** What a gesture leaves in the history, whichever handle started it. *)
Lemma gesture_history (start : AppState -> AppState) moves s :
  activeOperation (start s) <> OpNone ->
  initialLayers (interactionStartRef (start s)) = layers s ->
  canvasHistory (start s) = canvasHistory s ->
  let g := handleCanvasPointerUp (pointerMoves moves (start s)) in
  (sameArray (layers s) (layers g) = false ->
   canvasHistory g = History.recordState (layers s) (canvasHistory s))
  /\ (sameArray (layers s) (layers g) = true ->
      canvasHistory g = canvasHistory s).
Proof.
  intros Hop Hinit Hhist g. subst g. rewrite pointerUp_layers.
  destruct (pointerMoves_preserves moves (start s)) as (_ & B & C & D).
  split; intros H.
  - rewrite pointerUp_changed; rewrite ?C, ?D, ?Hinit, ?B, ?Hhist; auto.
  - rewrite pointerUp_unchanged; rewrite ?D, ?Hinit, ?B, ?Hhist; auto.
Qed.

(** [C6] Pointer-up and pointer-leave, in a session whose live array is not
    the array captured at pointer-down, record that captured array once; if
    it is still the same array, or no session is open, they record nothing.
    So a drag or a resize gesture, whatever its moves, leaves the history
    either as it was or with the pre-session array recorded once; and a drag
    of a layer with at least one move records it once. *)
Theorem pointer_up_records_once (s : AppState) (down : PointerEvent)
  (layer : CanvasLayer) (moves : list PointerEvent) :
  fresh s ->
  let initial := initialLayers (interactionStartRef s) in
  (activeOperation s <> OpNone -> sameArray initial (layers s) = false ->
   canvasHistory (handleCanvasPointerUp s)
   = History.recordState initial (canvasHistory s))
  /\ (activeOperation s = OpNone \/ sameArray initial (layers s) = true ->
      canvasHistory (handleCanvasPointerUp s) = canvasHistory s)
  /\ activeOperation (handleCanvasPointerUp s) = OpNone
  /\ layers (handleCanvasPointerUp s) = layers s
  /\ (forall g,
        g = dragGesture down layer moves s
        \/ g = resizeGesture down layer moves s ->
        (sameArray (layers s) (layers g) = false ->
         canvasHistory g = History.recordState (layers s) (canvasHistory s))
        /\ (sameArray (layers s) (layers g) = true ->
            canvasHistory g = canvasHistory s))
  /\ (id layer <> ""%string -> moves <> [] ->
      canvasHistory (dragGesture down layer moves s)
      = History.recordState (layers s) (canvasHistory s)).
Proof.
  intros Hfresh initial.
  split; [apply pointerUp_changed|].
  split; [apply pointerUp_unchanged|].
  split; [reflexivity|].
  split; [apply pointerUp_layers|].
  split.
  - intros g [-> | ->].
    + apply (gesture_history (handleLayerPointerDown down layer));
        [discriminate | reflexivity | reflexivity].
    + apply (gesture_history (handleResizePointerDown down layer));
        [discriminate | reflexivity | reflexivity].
  - intros Hid Hmoves.
    apply (gesture_history (handleLayerPointerDown down layer));
      [discriminate | reflexivity | reflexivity |].
    unfold dragGesture. rewrite pointerUp_layers.
    pose proof (drag_moves_addr moves (handleLayerPointerDown down layer s)
                  (id layer) eq_refl eq_refl Hid Hmoves) as L.
    simpl in L. unfold fresh in Hfresh. unfold sameArray.
    apply Nat.eqb_neq. lia.
Qed.

Lemma pointer_up_records_once_witness :
  fresh (mounted [square100])
  /\ canvasHistory
       (dragGesture (mkPointer 150 150) square100
          [mkPointer 160 160; mkPointer 170 170; mkPointer 180 180]
          (mounted [square100]))
     = mkState [layers (mounted [square100])] [].
Proof.
  set (s := mounted [square100]).
  assert (F : fresh s) by (unfold fresh; simpl; lia).
  split; [exact F|].
  destruct (pointer_up_records_once s (mkPointer 150 150) square100
              [mkPointer 160 160; mkPointer 170 170; mkPointer 180 180] F)
    as (_ & _ & _ & _ & _ & G).
  rewrite G; [reflexivity | discriminate | discriminate].
Defined.

(** The comparison at pointer-up is one of identities: a move that puts the
    layer where it already was still builds a new array, so the gesture is
    recorded although every layer has its old value. *)
Remark drag_without_displacement :
  elems (layers (dragGesture (mkPointer 150 150) square100 [mkPointer 150 150]
                   (mounted [square100])))
  = elems (layers (mounted [square100]))
  /\ canvasHistory
       (dragGesture (mkPointer 150 150) square100 [mkPointer 150 150]
          (mounted [square100]))
     = mkState [layers (mounted [square100])] [].
Proof.
  split; [|reflexivity].
  change (elems (layers (dragGesture (mkPointer 150 150) square100
                           [mkPointer 150 150] (mounted [square100]))))
    with [dragged (interactionStartRef
                     (handleLayerPointerDown (mkPointer 150 150) square100
                        (mounted [square100])))
            (150 - 150) (150 - 150) square100].
  simpl. unfold dragged, withPosition, square100, layerAt, CANVAS_SIZE,
    MIN_VISIBLE_PX. simpl. do 2 f_equal; minmax.
Qed.

(** In the component, undo followed by redo puts back the layer array (the
    same object) and both stacks. *)
Lemma handleUndo_handleRedo s :
  history (canvasHistory s) <> [] ->
  layers (handleRedo (handleUndo s)) = layers s
  /\ canvasHistory (handleRedo (handleUndo s)) = canvasHistory s.
Proof.
  intros H. destruct (nonempty_snoc _ H) as [h [p E]].
  assert (U : History.undo (layers s) (canvasHistory s)
              = (Some p, mkState h (redoStack (canvasHistory s) ++ [layers s]))).
  { destruct (canvasHistory s) as [hs r]. simpl in E. subst hs. apply undo_snoc. }
  assert (K : layers (handleUndo s) = p
              /\ canvasHistory (handleUndo s)
                 = mkState h (redoStack (canvasHistory s) ++ [layers s])).
  { unfold handleUndo. rewrite U.
    destruct (selectedLayerId s) as [sel|]; [|split; reflexivity].
    destruct (negb (sel =? "")%string && _); split; reflexivity. }
  destruct K as [Kl Kh]. unfold handleRedo. rewrite Kl, Kh, redo_snoc.
  simpl. split; [reflexivity|].
  destruct (canvasHistory s) as [hs r]. simpl in *. now subst hs.
Qed.


(** ** Stacking order *)

Lemma renumberFrom_length l : forall k, length (renumberFrom k l) = length l.
Proof. induction l as [|a l IH]; intros k; simpl; [|rewrite IH]; reflexivity. Qed.

Lemma renumberFrom_dense l : forall k, denseFrom k (renumberFrom k l).
Proof.
  unfold denseFrom. induction l as [|a l IH]; intros k; simpl; [reflexivity|].
  f_equal. apply IH.
Qed.

Lemma assign_length {A : Type} (v : A) l : forall i, length (assign i v l) = length l.
Proof.
  induction l as [|a l IH]; intros [|i]; simpl; try reflexivity.
  now rewrite IH.
Qed.

Lemma swap_length {A : Type} i j (l : list A) : length (swap i j l) = length l.
Proof.
  unfold swap. destruct (nth_error l j), (nth_error l i); try reflexivity.
  now rewrite !assign_length.
Qed.

(** Whenever the target is found, [reorderLayer] hands React a layer set of
    the same size whose z-indices are 1..N in array order, also when the
    layer is already at the end it is moved towards. *)
Lemma reordered_dense target direction prev l :
  reordered target direction prev = Some l ->
  dense l /\ length l = length prev.
Proof.
  unfold reordered. destruct (findIndex (hasId target) prev) as [index|];
    [|discriminate].
  intros E. injection E as <-. split; [apply renumberFrom_dense|].
  unfold renumber. rewrite renumberFrom_length.
  destruct direction.
  - destruct (index <? length prev - 1)%nat; [apply swap_length | reflexivity].
  - destruct (0 <? index)%nat; [apply swap_length | reflexivity].
Qed.

Lemma imageLoaded_dense img prev :
  dense prev -> dense (prev ++ [newLayerOf img prev]).
Proof.
  unfold dense, denseFrom. intros H.
  rewrite map_app, length_app, seq_app, map_app, H. reflexivity.
Qed.

Lemma dragMove_zIndex start sel e prev :
  map zIndex (dragMove start sel e prev) = map zIndex prev.
Proof.
  unfold dragMove. rewrite map_map. apply map_ext. intros l.
  destruct (hasId sel l); reflexivity.
Qed.

Lemma resizeMove_zIndex sel v prev :
  map zIndex (resizeMove sel v prev) = map zIndex prev.
Proof.
  unfold resizeMove. rewrite map_map. apply map_ext. intros l.
  destruct (hasId sel l); reflexivity.
Qed.

Lemma threeLayers_zIndex :
  map zIndex (elems (layers threeLayers)) = [0 + 1; 1 + 1; 1 + 1 + 1].
Proof. reflexivity. Qed.

(** [C7] Removing a layer does not renumber: after three layers are added
    and the first is removed, the two that remain carry the z-indices 2 and
    3, not 1 and 2, and the next asset added gets z-index 3 again; after the
    first two are removed, the next asset added gets z-index 2 and sits
    after a layer of z-index 3 in the array. *)
Theorem removeLayer_keeps_zIndex :
  dense (elems (layers threeLayers))
  /\ map id (elems (layers afterRemove)) = ["b"; "c"]%string
  /\ map zIndex (elems (layers afterRemove)) = [2; 3]
  /\ ~ dense (elems (layers afterRemove))
  /\ map zIndex
       (elems (layers (handleFileChange (Some [image "d" 200 200]) afterRemove)))
     = [2; 3; 3]
  /\ map zIndex
       (elems (layers (handleFileChange (Some [image "d" 200 200])
                         (removeLayer "b" afterRemove))))
     = [3; 2].
Proof.
  set (s := afterRemove).
  assert (Z : map zIndex (elems (layers s)) = [1 + 1; 1 + 1 + 1]) by reflexivity.
  split; [|split; [reflexivity|split; [|split; [|split]]]].
  - unfold dense, denseFrom. rewrite threeLayers_zIndex. simpl.
    repeat f_equal; lra.
  - rewrite Z. repeat f_equal; lra.
  - unfold dense, denseFrom. rewrite Z. simpl. intros E.
    injection E as E1 E2. lra.
  - change (map zIndex
              (elems (layers (handleFileChange (Some [image "d" 200 200]) s))))
      with [1 + 1; 1 + 1 + 1; 1 + 1 + 1].
    repeat f_equal; lra.
  - change (map zIndex
              (elems (layers (handleFileChange (Some [image "d" 200 200])
                                (removeLayer "b" s)))))
      with [1 + 1 + 1; 1 + 1].
    repeat f_equal; lra.
Qed.

(** ** Adding an asset *)

Lemma newLayer_jitter (r : R) : 0 <= r < 1 -> -20 <= (r - 0.5) * 40 < 20.
Proof. intros [H0 H1]. split; lra. Qed.

(** [C8] The layer made for an image of natural size w0 x h0 has scale
    [min(1, 250 / max(w0, h0))]; for an image of size 0 x 0 the quotient is
    [Infinity] and the scale is 1.  Each coordinate is the canvas centre
    minus half the rendered footprint plus a jitter in [-20, 20), the two
    jitters coming from separate draws.  A 200 x 200 image gets scale 1 and
    a position within 20 units of (200, 200).  The loaded image is appended
    to the layer set and selected. *)
Theorem add_asset_geometry (img : LoadedImage) (prev : list CanvasLayer) :
  0 <= randomX img < 1 ->
  0 <= randomY img < 1 ->
  let l := newLayerOf img prev in
  (Rmax (width img) (height img) <> 0 ->
   scale l = Rmin 1 (250 / Rmax (width img) (height img)))
  /\ (Rmax (width img) (height img) = 0 -> scale l = 1)
  /\ footprintWidth l = width img * scale l
  /\ footprintHeight l = height img * scale l
  /\ x l = CANVAS_SIZE / 2 - footprintWidth l / 2 + (randomX img - 0.5) * 40
  /\ y l = CANVAS_SIZE / 2 - footprintHeight l / 2 + (randomY img - 0.5) * 40
  /\ -20 <= x l - (CANVAS_SIZE / 2 - footprintWidth l / 2) < 20
  /\ -20 <= y l - (CANVAS_SIZE / 2 - footprintHeight l / 2) < 20
  /\ (width img = 200 -> height img = 200 ->
      scale l = 1 /\ Rabs (x l - 200) <= 20 /\ Rabs (y l - 200) <= 20)
  /\ (forall s,
        elems (layers (imageLoaded img s))
        = elems (layers s) ++ [newLayerOf img (elems (layers s))]
        /\ selectedLayerId (imageLoaded img s) = Some (newId img)).
Proof.
  intros Hx Hy l.
  pose proof (newLayer_jitter _ Hx) as Jx.
  pose proof (newLayer_jitter _ Hy) as Jy.
  split; [|split].
  - intros Hn. subst l. simpl. unfold initialScaleOf.
    destruct (Req_dec_T (Rmax (width img) (height img)) 0);
      [contradiction | reflexivity].
  - intros Hz. subst l. simpl. unfold initialScaleOf.
    destruct (Req_dec_T (Rmax (width img) (height img)) 0);
      [reflexivity | contradiction].
  - split; [reflexivity|]. split; [reflexivity|].
    split; [reflexivity|]. split; [reflexivity|].
    split; [|split; [|split]].
    + subst l. unfold footprintWidth. simpl. lra.
    + subst l. unfold footprintHeight. simpl. lra.
    + intros Hw Hh.
      assert (Sc : initialScaleOf img = 1).
      { unfold initialScaleOf. rewrite Hw, Hh.
        destruct (Req_dec_T (Rmax 200 200) 0) as [E|_]; [reflexivity|].
        minmax. }
      subst l. simpl. rewrite Sc, Hw, Hh. unfold CANVAS_SIZE.
      split; [reflexivity|]. split; apply Rabs_le; lra.
    + intros s. split; reflexivity.
Qed.

Lemma add_asset_geometry_witness :
  scale (newLayerOf (image "a" 200 200) []) = 1
  /\ Rabs (x (newLayerOf (image "a" 200 200) []) - 200) <= 20
  /\ Rabs (y (newLayerOf (image "a" 200 200) []) - 200) <= 20.
Proof.
  assert (H : 0 <= 0.5 < 1) by lra.
  destruct (add_asset_geometry (image "a" 200 200) [] H H)
    as (_ & _ & _ & _ & _ & _ & _ & _ & Sc & _).
  apply Sc; reflexivity.
Defined.

(** An image of size 0 x 0: the scale is 1 and the stored aspect ratio is
    NaN. *)
Example zero_size_image :
  scale (newLayerOf (image "z" 0 0) []) = 1
  /\ aspectRatio (newLayerOf (image "z" 0 0) []) = NotANumber.
Proof.
  split.
  - simpl. unfold initialScaleOf. simpl.
    destruct (Req_dec_T (Rmax 0 0) 0) as [_|N]; [reflexivity|].
    exfalso. apply N. minmax.
  - simpl. unfold divide.
    destruct (Req_dec_T 0 0) as [_|N]; [reflexivity | now exfalso].
Qed.

(** ** Loading a project *)

Example load_without_layers_key :
  loadProject (ReadText (Some noLayersFile)) = Rejected structureError.
Proof. reflexivity. Qed.

(** [C9] The claim as stated fails on the file [{"layers": [1]}]: its
    [layers] is no array of layer-shaped records, and the load resolves. *)
Lemma load_accepts_any_array :
  layersOfRecords numbersFile = false
  /\ loadProject (ReadText (Some numbersFile)) = Resolved [JNum 1]
  /\ ~ (loadProject (ReadText (Some numbersFile)) = Rejected structureError
        <-> layersOfRecords numbersFile = false).
Proof.
  split; [reflexivity|]. split; [reflexivity|].
  intros [_ H]. specialize (H eq_refl). discriminate H.
Qed.

Lemma truthy_array v : isArray v = true -> truthy v = true.
Proof. destruct v as [[| | | | |]|]; simpl; intros H; congruence. Qed.

(** [C9, amended] [loadProject] rejects a parsed file with the structure
    error exactly when the parsed value is not null and its [layers]
    property is missing or is not an array; the elements of the array are
    not inspected.  A file without the [layers] key is rejected.  Whenever
    the load is rejected, [handleLoadProject] leaves the layer array and the
    selection as they were, having recorded the array once in the history,
    and reports the error. *)
Theorem load_rejects_non_array (asLayers : list JSON -> list CanvasLayer)
  (json : JSON) (s : AppState) :
  (loadProject (ReadText (Some json)) = Rejected structureError
   <-> json <> JNull
       /\ forall items, getProperty json "layers" <> Got (Some (JArr items)))
  /\ (forall items, getProperty json "layers" = Got (Some (JArr items)) ->
      loadProject (ReadText (Some json)) = Resolved items)
  /\ (forall fields, lookupField "layers" fields = None ->
      loadProject (ReadText (Some (JObj fields))) = Rejected structureError)
  /\ (forall file msg, loadProject file = Rejected msg ->
      let s' := handleLoadProject asLayers (Some file) s in
      layers s' = layers s
      /\ selectedLayerId s' = selectedLayerId s
      /\ canvasHistory s' = History.recordState (layers s) (canvasHistory s)
      /\ error s' = Some (mkError "Load Failed" msg)).
Proof.
  split; [|split; [|split]].
  - unfold loadProject. destruct (getProperty json "layers") as [|v] eqn:G.
    + split; [discriminate|]. intros [Hn _].
      destruct json; simpl in G; try discriminate G. contradiction.
    + assert (Hn : json <> JNull) by (intros ->; discriminate G).
      destruct (isArray v) eqn:Arr.
      * rewrite (truthy_array v Arr). simpl. split; [discriminate|].
        intros [_ H]. exfalso.
        destruct v as [[| | | | items|]|]; simpl in Arr; try discriminate Arr.
        now apply (H items).
      * rewrite andb_false_r. split; [|reflexivity].
        intros _. split; [exact Hn|]. intros items E.
        injection E as ->. discriminate Arr.
  - intros items G. unfold loadProject. rewrite G. reflexivity.
  - intros fields G. unfold loadProject. simpl. rewrite G. reflexivity.
  - intros file msg E s'. subst s'. unfold handleLoadProject. rewrite E.
    repeat split.
Qed.

Lemma load_rejects_non_array_witness :
  loadProject (ReadText (Some noLayersFile)) = Rejected structureError
  /\ layers (handleLoadProject (fun _ => [])
               (Some (ReadText (Some noLayersFile))) (mounted [square100]))
     = layers (mounted [square100]).
Proof.
  split; [reflexivity|].
  destruct (load_rejects_non_array (fun _ => []) noLayersFile
              (mounted [square100])) as (_ & _ & _ & H).
  apply (H (ReadText (Some noLayersFile)) structureError). reflexivity.
Defined.

End AppFacts.

(** * Further properties of the history hook *)

Module HistoryLaws.

Import History HistoryFacts.

Section Laws.

Context {A : Type}.

Implicit Types (s : state A) (a c : A) (l r : list A).

Lemma recordState_snoc a s :
  exists h, history (recordState a s) = h ++ [a].
Proof.
  unfold recordState, shift. simpl.
  destruct (Nat.ltb_spec HISTORY_LIMIT (length (history s ++ [a]))) as [L|L].
  - destruct (history s) as [|b h] eqn:E.
    + simpl in L. unfold HISTORY_LIMIT in L. lia.
    + exists h. reflexivity.
  - now exists (history s).
Qed.

Lemma recordState_shape a s :
  exists h, recordState a s = mkState (h ++ [a]) [].
Proof.
  destruct (recordState_snoc a s) as [h E]. exists h.
  destruct (recordState a s) as [hs rs] eqn:R. simpl in E. subst hs.
  f_equal. change rs with (redoStack (mkState (h ++ [a]) rs)).
  rewrite <- R. reflexivity.
Qed.

Lemma undo_empty c r : undo c (mkState (@nil A) r) = (None, mkState [] r).
Proof. reflexivity. Qed.

Lemma undoAll_empty k c r :
  undoAll k c (mkState (@nil A) r) = repeat None k.
Proof.
  induction k as [|k IH]; [reflexivity|].
  simpl. f_equal. exact IH.
Qed.

Lemma undoAll_history l : forall k c r,
  undoAll (length l + k) c (mkState l r) = map Some (rev l) ++ repeat None k.
Proof.
  induction l as [|p l IH] using rev_ind; intros k c r.
  - simpl. apply undoAll_empty.
  - rewrite length_app, rev_app_distr. simpl length.
    replace (length l + 1 + k)%nat with (S (length l + k)) by lia.
    simpl. rewrite undo_snoc. f_equal. apply IH.
Qed.

End Laws.

(** [X1] Although [redo] appends to the past stack without looking at
    [HISTORY_LIMIT], in every state the hook can reach the two stacks hold
    at most 15 entries together; so the past stack holds at most 15 after
    any further [undo] or [redo] as well. *)
Theorem history_stacks_bounded (A : Type) (s : state A) (c : A) :
  Reachable s ->
  (length (history s) + length (redoStack s) <= HISTORY_LIMIT)%nat
  /\ (length (history (snd (redo c s))) <= HISTORY_LIMIT)%nat
  /\ (length (history (snd (undo c s))) <= HISTORY_LIMIT)%nat.
Proof.
  intros H. split; [|split].
  - now apply Reachable_bound.
  - pose proof (Reachable_bound _ (R_redo s c H)). lia.
  - pose proof (Reachable_bound _ (R_undo s c H)). lia.
Qed.

Lemma history_stacks_bounded_witness :
  Reachable (snd (undo 7%nat (recordAll (seq 1 20) init)))
  /\ (length (history (snd (redo 8%nat (snd (undo 7%nat (recordAll (seq 1 20) init))))))
      <= HISTORY_LIMIT)%nat.
Proof.
  assert (R : Reachable (snd (undo 7%nat (recordAll (seq 1 20) (@init nat))))).
  { apply R_undo. apply Reachable_recordAll. constructor. }
  split; [exact R|].
  apply (history_stacks_bounded nat _ 8%nat R).
Defined.

(** [X2] [undo] right after [recordState] returns the snapshot just
    recorded, also when recording it evicted the oldest entry, and leaves
    the current snapshot as the only entry to redo. *)
Theorem undo_after_recordState (A : Type) (s : state A) (a c : A) :
  exists h,
    history (recordState a s) = h ++ [a]
    /\ undo c (recordState a s) = (Some a, mkState h [c]).
Proof.
  destruct (recordState_shape a s) as [h E]. exists h. rewrite E.
  split; [reflexivity | apply (undo_snoc h [] a c)].
Qed.

(** [X3] [canUndo] tells whether [undo] will return a snapshot: if it is
    false [undo] returns null and changes nothing, if it is true [undo]
    returns the newest past entry, removes it and pushes the current
    snapshot on the future stack.  The same holds of [canRedo] and [redo]
    with the two stacks exchanged. *)
Theorem canUndo_reflects_undo (A : Type) (s : state A) (c : A) :
  (canUndo s = false -> undo c s = (None, s))
  /\ (canUndo s = true ->
      exists h p, history s = h ++ [p]
                  /\ undo c s = (Some p, mkState h (redoStack s ++ [c])))
  /\ (canRedo s = false -> redo c s = (None, s))
  /\ (canRedo s = true ->
      exists r n, redoStack s = r ++ [n]
                  /\ redo c s = (Some n, mkState (history s ++ [c]) r)).
Proof.
  destruct s as [h r]. unfold canUndo, canRedo. simpl.
  split; [|split; [|split]].
  - intros H. apply Nat.ltb_ge in H. destruct h; [reflexivity | simpl in H; lia].
  - intros H. apply Nat.ltb_lt in H.
    assert (N : h <> []) by (intros ->; simpl in H; lia).
    destruct (nonempty_snoc h N) as [h' [p ->]].
    exists h', p. split; [reflexivity | apply undo_snoc].
  - intros H. apply Nat.ltb_ge in H. destruct r; [reflexivity | simpl in H; lia].
  - intros H. apply Nat.ltb_lt in H.
    assert (N : r <> []) by (intros ->; simpl in H; lia).
    destruct (nonempty_snoc r N) as [r' [n ->]].
    exists r', n. split; [reflexivity | apply redo_snoc].
Qed.

Lemma canUndo_reflects_undo_witness :
  exists h p, history (mkState [1; 2; 3]%nat [9]%nat) = h ++ [p]
              /\ undo 4%nat (mkState [1; 2; 3]%nat [9]%nat)
                 = (Some p, mkState h ([9]%nat ++ [4]%nat)).
Proof.
  destruct (canUndo_reflects_undo nat (mkState [1; 2; 3]%nat [9]%nat) 4%nat)
    as (_ & U & _).
  apply U. reflexivity.
Defined.

(** [X4] Repeated [undo] returns the past entries newest first, each once,
    and null from then on. *)
Theorem undoAll_newest_first (A : Type) (s : state A) (c : A) (k : nat) :
  undoAll (length (history s) + k) c s
  = map Some (rev (history s)) ++ repeat None k.
Proof.
  destruct s as [h r]. simpl. apply undoAll_history.
Qed.

End HistoryLaws.

(** * Further properties of the canvas handlers *)

Module CanvasLaws.

Import History ProjectManager App Canvas Samples HistoryFacts AppFacts
  HistoryLaws.

(** ** Undo and redo in the component *)

Lemma handleUndo_snoc t h p r :
  canvasHistory t = mkState (h ++ [p]) r ->
  layers (handleUndo t) = p
  /\ canvasHistory (handleUndo t) = mkState h (r ++ [layers t])
  /\ nextAddr (handleUndo t) = nextAddr t.
Proof.
  intros E. unfold handleUndo. rewrite E, undo_snoc.
  destruct (selectedLayerId t) as [sel|]; [|repeat split].
  destruct (negb (sel =? "")%string && _); repeat split.
Qed.

Lemma handleUndo_recorded t a h0 :
  canvasHistory t = History.recordState a h0 -> layers (handleUndo t) = a.
Proof.
  intros E. destruct (recordState_shape a h0) as [h S]. rewrite S in E.
  apply (handleUndo_snoc t h a [] E).
Qed.

Lemma imagesLoaded_history imgs : forall s,
  canvasHistory (fold_left (fun acc img => imageLoaded img acc) imgs s)
  = canvasHistory s.
Proof.
  induction imgs as [|img imgs IH]; intros s; [reflexivity|].
  simpl. rewrite IH. reflexivity.
Qed.

Lemma recorded_nonempty {A : Type} (a : A) (h0 : History.state A) :
  history (History.recordState a h0) <> [].
Proof.
  destruct (recordState_shape a h0) as [h ->]. simpl.
  intros E. apply (f_equal (@length A)) in E. rewrite length_app in E.
  simpl in E. lia.
Qed.

(** The handlers that record the layer array before they change it. *)
Lemma recording_handlers asLayers s target d imgs file t :
  In t [removeLayer target s; reorderLayer target d s; centerLayer target s;
        handleFileChange (Some imgs) s;
        handleLoadProject asLayers (Some file) s] ->
  canvasHistory t = History.recordState (layers s) (canvasHistory s).
Proof.
  simpl. intros [<-|[<-|[<-|[<-|[<-|[]]]]]].
  - unfold removeLayer. destruct (selectedLayerId s) as [sel|]; [|reflexivity].
    destruct (sel =? target)%string; reflexivity.
  - unfold reorderLayer. destruct (reordered _ _ _); reflexivity.
  - unfold centerLayer. destruct (find _ _); reflexivity.
  - unfold handleFileChange. rewrite imagesLoaded_history. reflexivity.
  - unfold handleLoadProject. destruct (loadProject file); [|reflexivity].
    destruct (0 <? _)%nat; reflexivity.
Qed.

(** [X5] Removing, reordering or centering a layer, adding any number of
    assets, and loading a project, whether it succeeds or fails, are each
    taken back by one undo: the layer array is again the array (the same
    object) that was live before; and one redo brings back the array the
    handler had set. *)
Theorem one_undo_reverts (asLayers : list JSON -> list CanvasLayer)
  (s : AppState) (target : string) (d : Direction) (imgs : list LoadedImage)
  (file : FileRead) :
  forall t,
    In t [removeLayer target s; reorderLayer target d s; centerLayer target s;
          handleFileChange (Some imgs) s;
          handleLoadProject asLayers (Some file) s] ->
    layers (handleUndo t) = layers s
    /\ layers (handleRedo (handleUndo t)) = layers t.
Proof.
  intros t Ht.
  pose proof (recording_handlers asLayers s target d imgs file t Ht) as E.
  split.
  - apply (handleUndo_recorded t _ _ E).
  - apply handleUndo_handleRedo. rewrite E. apply recorded_nonempty.
Qed.

Lemma one_undo_reverts_witness :
  layers (handleUndo (removeLayer "b" threeLayers)) = layers threeLayers
  /\ layers (handleRedo (handleUndo (removeLayer "b" threeLayers)))
     = layers (removeLayer "b" threeLayers).
Proof.
  apply (one_undo_reverts (fun _ => []) threeLayers "b" Up [] ReadError).
  left. reflexivity.
Defined.

(** [X6] A drag or resize gesture that has replaced the layer array is
    taken back by one undo, whatever the number of its moves; a drag of a
    layer with at least one move is such a gesture. *)
Theorem gesture_undone_by_one_undo (s : AppState) (down : PointerEvent)
  (layer : CanvasLayer) (moves : list PointerEvent) :
  fresh s ->
  (forall g,
      g = dragGesture down layer moves s
      \/ g = resizeGesture down layer moves s ->
      sameArray (layers s) (layers g) = false ->
      layers (handleUndo g) = layers s)
  /\ (id layer <> ""%string -> moves <> [] ->
      layers (handleUndo (dragGesture down layer moves s)) = layers s).
Proof.
  intros Hfresh. split.
  - intros g Hg Hdiff.
    apply (handleUndo_recorded g (layers s) (canvasHistory s)).
    destruct Hg as [-> | ->].
    + apply (gesture_history (handleLayerPointerDown down layer));
        [discriminate | reflexivity | reflexivity | exact Hdiff].
    + apply (gesture_history (handleResizePointerDown down layer));
        [discriminate | reflexivity | reflexivity | exact Hdiff].
  - intros Hid Hmoves.
    apply (handleUndo_recorded _ (layers s) (canvasHistory s)).
    apply (gesture_history (handleLayerPointerDown down layer));
      [discriminate | reflexivity | reflexivity |].
    rewrite pointerUp_layers.
    pose proof (drag_moves_addr moves (handleLayerPointerDown down layer s)
                  (id layer) eq_refl eq_refl Hid Hmoves) as L.
    simpl in L. unfold fresh in Hfresh. unfold sameArray.
    apply Nat.eqb_neq. lia.
Qed.

Lemma gesture_undone_by_one_undo_witness :
  fresh (mounted [square100])
  /\ layers (handleUndo
               (dragGesture (mkPointer 150 150) square100
                  [mkPointer 160 160; mkPointer 170 170] (mounted [square100])))
     = layers (mounted [square100]).
Proof.
  assert (F : fresh (mounted [square100])) by (unfold fresh; simpl; lia).
  split; [exact F|].
  destruct (gesture_undone_by_one_undo (mounted [square100]) (mkPointer 150 150)
              square100 [mkPointer 160 160; mkPointer 170 170] F) as [_ G].
  apply G; discriminate.
Defined.

(** [X7] After an undo that restored a layer set, the selection is the one
    from before or none, and a selected id that is not the empty string
    names a layer of the restored set. *)
Theorem undo_keeps_selection_valid (s : AppState) :
  history (canvasHistory s) <> [] ->
  (selectedLayerId (handleUndo s) = selectedLayerId s
   \/ selectedLayerId (handleUndo s) = None)
  /\ (forall sel, selectedLayerId (handleUndo s) = Some sel ->
      sel <> ""%string ->
      existsb (hasId sel) (elems (layers (handleUndo s))) = true).
Proof.
  intros H. destruct (nonempty_snoc _ H) as [h [p E]].
  assert (U : History.undo (layers s) (canvasHistory s)
              = (Some p, mkState h (redoStack (canvasHistory s) ++ [layers s]))).
  { destruct (canvasHistory s) as [hs r]. simpl in E. subst hs. apply undo_snoc. }
  unfold handleUndo. rewrite U.
  destruct (selectedLayerId s) as [sel0|] eqn:Hsel.
  - destruct (String.eqb_spec sel0 "") as [Hempty|Hfull]; simpl.
    + split; [left; exact Hsel|]. intros sel Hs Hne. congruence.
    + destruct (existsb (hasId sel0) (elems p)) eqn:Hfound; simpl.
      * split; [left; exact Hsel|]. intros sel Hs _. congruence.
      * split; [now right|]. intros sel Hs. discriminate Hs.
  - simpl. split; [left; exact Hsel|]. intros sel Hs. congruence.
Qed.

Lemma undo_keeps_selection_valid_witness :
  selectedLayerId (handleUndo threeLayers) = None.
Proof.
  assert (N : history (canvasHistory threeLayers) <> []) by discriminate.
  destruct (undo_keeps_selection_valid threeLayers N) as [[H|H] _];
    [|exact H].
  exfalso. discriminate H.
Defined.

Lemma handleRedo_core t t' :
  layers t = layers t' -> canvasHistory t = canvasHistory t' ->
  layers (handleRedo t) = layers (handleRedo t')
  /\ canvasHistory (handleRedo t) = canvasHistory (handleRedo t').
Proof.
  intros L H. unfold handleRedo. rewrite L, H.
  destruct (History.redo (layers t') (canvasHistory t')) as [[n|] h];
    split; simpl; auto.
Qed.

Lemma handleUndo_length s :
  history (canvasHistory s) <> [] ->
  S (length (history (canvasHistory (handleUndo s))))
  = length (history (canvasHistory s)).
Proof.
  intros H. destruct (nonempty_snoc _ H) as [h [p E]].
  assert (C : canvasHistory s = mkState (h ++ [p]) (redoStack (canvasHistory s))).
  { destruct (canvasHistory s) as [hs r]. simpl in E. now subst hs. }
  destruct (handleUndo_snoc s h p _ C) as (_ & K & _).
  rewrite K, E, length_app. simpl. lia.
Qed.

Lemma undoTimes_S n s : undoTimes (S n) s = undoTimes n (handleUndo s).
Proof. unfold undoTimes. apply Nat.iter_succ_r. Qed.

Lemma redoTimes_S n t : redoTimes (S n) t = handleRedo (redoTimes n t).
Proof. reflexivity. Qed.

Lemma undoTimes_redoTimes n : forall s,
  (n <= length (history (canvasHistory s)))%nat ->
  layers (redoTimes n (undoTimes n s)) = layers s
  /\ canvasHistory (redoTimes n (undoTimes n s)) = canvasHistory s.
Proof.
  induction n as [|n IH]; intros s Hn; [split; reflexivity|].
  assert (N : history (canvasHistory s) <> []).
  { intros E. rewrite E in Hn. simpl in Hn. lia. }
  rewrite undoTimes_S, redoTimes_S.
  pose proof (handleUndo_length s N) as L.
  destruct (IH (handleUndo s)) as [Il Ih]; [lia|].
  destruct (handleRedo_core _ _ Il Ih) as [Rl Rh].
  destruct (handleUndo_handleRedo s N) as [Ul Uh].
  split; congruence.
Qed.

(** [X8] As many redos as undos, with nothing recorded in between, put
    back the layer array and both stacks, for any number of undos up to the
    number of past entries. *)
Theorem undos_then_redos_restore (n : nat) (s : AppState) :
  (n <= length (history (canvasHistory s)))%nat ->
  layers (redoTimes n (undoTimes n s)) = layers s
  /\ canvasHistory (redoTimes n (undoTimes n s)) = canvasHistory s
  /\ length (redoStack (canvasHistory (undoTimes n s)))
     = (length (redoStack (canvasHistory s)) + n)%nat.
Proof.
  intros Hn. destruct (undoTimes_redoTimes n s Hn) as [L H].
  split; [exact L|]. split; [exact H|].
  clear L H. revert s Hn. induction n as [|n IH]; intros s Hn.
  - simpl. lia.
  - assert (N : history (canvasHistory s) <> []).
    { intros E. rewrite E in Hn. simpl in Hn. lia. }
    rewrite undoTimes_S.
    pose proof (handleUndo_length s N) as Len.
    rewrite IH by lia.
    destruct (nonempty_snoc _ N) as [h [p E]].
    assert (C : canvasHistory s
                = mkState (h ++ [p]) (redoStack (canvasHistory s))).
    { destruct (canvasHistory s) as [hs r]. simpl in E. now subst hs. }
    destruct (handleUndo_snoc s h p _ C) as (_ & K & _).
    rewrite K. simpl. rewrite length_app. simpl. lia.
Qed.

Lemma undos_then_redos_restore_witness :
  layers (redoTimes 2 (undoTimes 2 (removeLayer "a" (removeLayer "b" threeLayers))))
  = layers (removeLayer "a" (removeLayer "b" threeLayers)).
Proof.
  apply (undos_then_redos_restore 2 (removeLayer "a" (removeLayer "b" threeLayers))).
  simpl. lia.
Defined.

(** ** Drag and resize sessions *)

Lemma sameButPosition_refl l : sameButPosition l l.
Proof. repeat split. Qed.

Lemma sameButPosition_dragged start dx dy l :
  sameButPosition l (dragged start dx dy l).
Proof. repeat split. Qed.

(** [X9] A drag move changes nothing but the [x] and [y] of the layers with
    the selected id: their other fields, the other layers, the selection,
    the history and the session record stay as they were. *)
Theorem drag_move_frame (e : PointerEvent) (s : AppState) :
  activeOperation s = OpDrag ->
  Forall2
    (fun l l' => sameButPosition l l' /\ (isSelected s l = false -> l' = l))
    (elems (layers s)) (elems (layers (handleCanvasPointerMove e s)))
  /\ selectedLayerId (handleCanvasPointerMove e s) = selectedLayerId s
  /\ canvasHistory (handleCanvasPointerMove e s) = canvasHistory s
  /\ activeOperation (handleCanvasPointerMove e s) = activeOperation s
  /\ interactionStartRef (handleCanvasPointerMove e s) = interactionStartRef s.
Proof.
  intros Hop. split.
  2: { destruct (move_preserves e s) as (A & B & C & D & _). auto. }
  unfold handleCanvasPointerMove, isSelected. rewrite Hop.
  destruct (selectedLayerId s) as [sel|].
  2: { apply Forall2_same. intros a. split; [apply sameButPosition_refl | auto]. }
  destruct (sel =? "")%string.
  { apply Forall2_same. intros a. split; [apply sameButPosition_refl | auto]. }
  simpl. unfold dragMove. apply Forall2_map_same. intros l _.
  destruct (hasId sel l); split.
  - apply sameButPosition_dragged.
  - discriminate.
  - apply sameButPosition_refl.
  - reflexivity.
Qed.

Lemma drag_move_frame_witness :
  Forall2
    (fun l l' =>
       sameButPosition l l' /\ (isSelected dragSession l = false -> l' = l))
    (elems (layers dragSession))
    (elems (layers (handleCanvasPointerMove (mkPointer 100 100) dragSession))).
Proof.
  apply (drag_move_frame (mkPointer 100 100) dragSession). reflexivity.
Defined.

Lemma dragMove_absorbs start sel e1 e2 prev :
  dragMove start sel e2 (dragMove start sel e1 prev)
  = dragMove start sel e2 prev.
Proof.
  unfold dragMove. rewrite map_map. apply map_ext. intros l.
  destruct (hasId sel l) eqn:H.
  - change (hasId sel (dragged start (clientX e1 - startX start)
                         (clientY e1 - startY start) l))
      with (hasId sel l).
    rewrite H. reflexivity.
  - rewrite H. reflexivity.
Qed.

Lemma move_without_selection e s :
  selectedLayerId s = None \/ selectedLayerId s = Some ""%string ->
  handleCanvasPointerMove e s = s.
Proof.
  unfold handleCanvasPointerMove. intros [H|H]; rewrite H; reflexivity.
Qed.

Lemma drag_move_absorbs e1 e2 s :
  activeOperation s = OpDrag ->
  elems (layers (handleCanvasPointerMove e2 (handleCanvasPointerMove e1 s)))
  = elems (layers (handleCanvasPointerMove e2 s)).
Proof.
  intros Hop.
  destruct (selectedLayerId s) as [sel|] eqn:Hsel.
  2: { now rewrite !(move_without_selection _ s) by auto. }
  destruct (String.eqb_spec sel "") as [Hempty|Hfull].
  { subst sel. now rewrite !(move_without_selection _ s) by auto. }
  rewrite (move_drag e1 s sel Hop Hsel Hfull).
  rewrite (move_drag e2 s sel Hop Hsel Hfull).
  rewrite (move_drag e2 (setNewLayers _ s) sel Hop Hsel Hfull).
  simpl. apply dragMove_absorbs.
Qed.

Lemma pointerMoves_snoc es e s :
  pointerMoves (es ++ [e]) s = handleCanvasPointerMove e (pointerMoves es s).
Proof. unfold pointerMoves. now rewrite fold_left_app. Qed.

(** [X10] In a drag session the layer set after a run of moves is the one
    the last move alone would have given: the position follows the pointer,
    not the path it took. *)
Theorem drag_depends_on_last_move (es : list PointerEvent) (e : PointerEvent)
  (s : AppState) :
  activeOperation s = OpDrag ->
  elems (layers (pointerMoves (es ++ [e]) s))
  = elems (layers (handleCanvasPointerMove e s)).
Proof.
  revert s. induction es as [|e1 es IH]; intros s Hop; [reflexivity|].
  change (pointerMoves ((e1 :: es) ++ [e]) s)
    with (pointerMoves (es ++ [e]) (handleCanvasPointerMove e1 s)).
  destruct (move_preserves e1 s) as (_ & _ & C & _).
  rewrite IH by congruence.
  now apply drag_move_absorbs.
Qed.

Lemma drag_depends_on_last_move_witness :
  elems (layers (pointerMoves ([mkPointer 0 0; mkPointer 900 50] ++ [mkPointer 100 100])
                   dragSession))
  = elems (layers (handleCanvasPointerMove (mkPointer 100 100) dragSession)).
Proof.
  apply (drag_depends_on_last_move [mkPointer 0 0; mkPointer 900 50]
           (mkPointer 100 100) dragSession).
  reflexivity.
Defined.

Lemma find_resizeMove sel v prev :
  find (hasId sel) (resizeMove sel v prev)
  = option_map (fun l => withScale l v) (find (hasId sel) prev).
Proof.
  unfold resizeMove. induction prev as [|a prev IH]; [reflexivity|].
  simpl. destruct (hasId sel a) eqn:H.
  - change (hasId sel (withScale a v)) with (hasId sel a). rewrite H.
    reflexivity.
  - rewrite H. exact IH.
Qed.

Lemma resizeMove_absorbs sel v1 v2 prev :
  resizeMove sel v2 (resizeMove sel v1 prev) = resizeMove sel v2 prev.
Proof.
  unfold resizeMove. rewrite map_map. apply map_ext. intros l.
  destruct (hasId sel l) eqn:H.
  - change (hasId sel (withScale l v1)) with (hasId sel l). rewrite H.
    reflexivity.
  - rewrite H. reflexivity.
Qed.

Lemma move_resize_notfound e s sel :
  activeOperation s = OpResize -> selectedLayerId s = Some sel ->
  find (hasId sel) (elems (layers s)) = None ->
  handleCanvasPointerMove e s = s.
Proof.
  intros Hop Hsel Hfind. unfold handleCanvasPointerMove.
  rewrite Hsel, Hop, Hfind. destruct (sel =? "")%string; reflexivity.
Qed.

Lemma resize_move_absorbs e1 e2 s :
  activeOperation s = OpResize ->
  elems (layers (handleCanvasPointerMove e2 (handleCanvasPointerMove e1 s)))
  = elems (layers (handleCanvasPointerMove e2 s)).
Proof.
  intros Hop.
  destruct (selectedLayerId s) as [sel|] eqn:Hsel.
  2: { now rewrite !(move_without_selection _ s) by auto. }
  destruct (String.eqb_spec sel "") as [Hempty|Hfull].
  { subst sel. now rewrite !(move_without_selection _ s) by auto. }
  destruct (find (hasId sel) (elems (layers s))) as [sl|] eqn:Hfind.
  2: { now rewrite !(move_resize_notfound _ s sel) by assumption. }
  destruct (Rlt_dec 0 (initialDistance (interactionStartRef s))) as [Hpos|Hz].
  2: { now rewrite !(move_resize_idle _ s) by assumption. }
  rewrite (move_resize e1 s sel sl Hop Hsel Hfull Hfind Hpos).
  rewrite (move_resize e2 s sel sl Hop Hsel Hfull Hfind Hpos).
  set (v1 := safeScaleOf (interactionStartRef s) (distanceTo e1 sl s)).
  assert (F : find (hasId sel)
                (elems (layers (setNewLayers (resizeMove sel v1 (elems (layers s))) s)))
              = Some (withScale sl v1)).
  { simpl. rewrite find_resizeMove, Hfind. reflexivity. }
  rewrite (move_resize e2 (setNewLayers _ s) sel (withScale sl v1)
             Hop Hsel Hfull F Hpos).
  simpl. apply resizeMove_absorbs.
Qed.

(** [X11] In a resize session the layer set after a run of moves is the
    one the last move alone would have given: the scale follows the distance
    of the pointer from the anchor, not the path the pointer took. *)
Theorem resize_depends_on_last_move (es : list PointerEvent)
  (e : PointerEvent) (s : AppState) :
  activeOperation s = OpResize ->
  elems (layers (pointerMoves (es ++ [e]) s))
  = elems (layers (handleCanvasPointerMove e s)).
Proof.
  revert s. induction es as [|e1 es IH]; intros s Hop; [reflexivity|].
  change (pointerMoves ((e1 :: es) ++ [e]) s)
    with (pointerMoves (es ++ [e]) (handleCanvasPointerMove e1 s)).
  destruct (move_preserves e1 s) as (_ & _ & C & _).
  rewrite IH by congruence.
  now apply resize_move_absorbs.
Qed.

Lemma resize_depends_on_last_move_witness :
  elems (layers (pointerMoves ([mkPointer 300 400; mkPointer 3 4] ++ [mkPointer 15 20])
                   resizeSession))
  = elems (layers (handleCanvasPointerMove (mkPointer 15 20) resizeSession)).
Proof.
  apply (resize_depends_on_last_move [mkPointer 300 400; mkPointer 3 4]
           (mkPointer 15 20) resizeSession).
  reflexivity.
Defined.

(** [X12] While the pointer keeps a dragged layer inside the clamping
    interval, the layer follows the pointer exactly: its position is the
    position it had at pointer-down plus the displacement of the pointer
    since then, on each axis for which that sum lies between
    [MIN_VISIBLE_PX] minus the footprint and [CANVAS_SIZE - MIN_VISIBLE_PX]. *)
Theorem drag_follows_pointer (s : AppState) (down e : PointerEvent)
  (layer : CanvasLayer) :
  id layer <> ""%string ->
  let newX := x layer + (clientX e - clientX down) in
  let newY := y layer + (clientY e - clientY down) in
  Forall2
    (fun l l' =>
       hasId (id layer) l = true ->
       (MIN_VISIBLE_PX - footprintWidth l <= newX <= CANVAS_SIZE - MIN_VISIBLE_PX ->
        x l' = newX)
       /\ (MIN_VISIBLE_PX - footprintHeight l <= newY <= CANVAS_SIZE - MIN_VISIBLE_PX ->
           y l' = newY))
    (elems (layers s))
    (elems (layers (handleCanvasPointerMove e
                      (handleLayerPointerDown down layer s)))).
Proof.
  intros Hid newX newY.
  rewrite (move_drag e (handleLayerPointerDown down layer s) (id layer)
             eq_refl eq_refl Hid).
  simpl. unfold dragMove. apply Forall2_map_same. intros l _ Hl.
  rewrite Hl. unfold dragged, footprintWidth, footprintHeight. simpl.
  fold newX newY. split; intros [Lo Hi]; minmax.
Qed.

Lemma drag_follows_pointer_witness :
  Forall2
    (fun l l' =>
       hasId "a" l = true ->
       (MIN_VISIBLE_PX - footprintWidth l <= 100 + (170 - 150)
        <= CANVAS_SIZE - MIN_VISIBLE_PX -> x l' = 100 + (170 - 150))
       /\ (MIN_VISIBLE_PX - footprintHeight l <= 100 + (140 - 150)
           <= CANVAS_SIZE - MIN_VISIBLE_PX -> y l' = 100 + (140 - 150)))
    (elems (layers (mounted [square100])))
    (elems (layers (handleCanvasPointerMove (mkPointer 170 140)
                      (handleLayerPointerDown (mkPointer 150 150) square100
                         (mounted [square100]))))).
Proof.
  apply (drag_follows_pointer (mounted [square100]) (mkPointer 150 150)
           (mkPointer 170 140) square100).
  discriminate.
Defined.

(** [X13] Once pointer-up has closed a session, a pointer-leave that follows
    it and any further pointer move change nothing. *)
Theorem closed_session_is_inert (e : PointerEvent) (s : AppState) :
  handleCanvasPointerUp (handleCanvasPointerUp s) = handleCanvasPointerUp s
  /\ handleCanvasPointerMove e (handleCanvasPointerUp s)
     = handleCanvasPointerUp s.
Proof.
  split; [reflexivity|].
  unfold handleCanvasPointerMove.
  destruct (selectedLayerId (handleCanvasPointerUp s)) as [sel|];
    [|reflexivity].
  destruct (sel =? "")%string; reflexivity.
Qed.

(** ** Reordering *)

Lemma findIndex_split p l : forall i,
  findIndex p l = Some i ->
  exists l1 a l2,
    l = l1 ++ a :: l2 /\ length l1 = i /\ p a = true
    /\ Forall (fun b => p b = false) l1.
Proof.
  induction l as [|b l IH]; intros i H; [discriminate|].
  simpl in H. destruct (p b) eqn:Hb.
  - injection H as <-. exists [], b, l. repeat split; auto.
  - destruct (findIndex p l) as [j|]; [|discriminate].
    injection H as <-. destruct (IH j eq_refl) as (l1 & a & l2 & E & L & Pa & F).
    exists (b :: l1), a, l2. subst l. repeat split; simpl; auto.
Qed.

Lemma findIndex_app p l1 a l2 :
  Forall (fun b => p b = false) l1 -> p a = true ->
  findIndex p (l1 ++ a :: l2) = Some (length l1).
Proof.
  intros F Pa. induction F as [|b l1 Hb _ IH]; simpl.
  - now rewrite Pa.
  - now rewrite Hb, IH.
Qed.

Lemma nth_error_middle {A : Type} (l1 : list A) a l2 :
  nth_error (l1 ++ a :: l2) (length l1) = Some a.
Proof. rewrite nth_error_app2, Nat.sub_diag by lia. reflexivity. Qed.

Lemma assign_middle {A : Type} (l1 : list A) a v l2 :
  assign (length l1) v (l1 ++ a :: l2) = l1 ++ v :: l2.
Proof. induction l1 as [|b l1 IH]; simpl; [|rewrite IH]; reflexivity. Qed.

Lemma swap_with_next {A : Type} (l1 : list A) a b l2 :
  swap (length l1) (length l1 + 1) (l1 ++ a :: b :: l2) = l1 ++ b :: a :: l2.
Proof.
  unfold swap.
  replace (length l1 + 1)%nat with (length (l1 ++ [a])) by (rewrite length_app; reflexivity).
  replace (l1 ++ a :: b :: l2) with ((l1 ++ [a]) ++ b :: l2)
    by (rewrite <- app_assoc; reflexivity).
  rewrite nth_error_middle.
  rewrite <- app_assoc. simpl app. rewrite nth_error_middle.
  rewrite assign_middle.
  replace (l1 ++ b :: b :: l2) with ((l1 ++ [b]) ++ b :: l2)
    by (rewrite <- app_assoc; reflexivity).
  replace (length (l1 ++ [a])) with (length (l1 ++ [b]))
    by (rewrite !length_app; reflexivity).
  rewrite assign_middle, <- app_assoc. reflexivity.
Qed.

Lemma swap_with_previous {A : Type} (l1 : list A) a b l2 :
  swap (length l1 + 1) (length l1 + 1 - 1) (l1 ++ a :: b :: l2)
  = l1 ++ b :: a :: l2.
Proof.
  rewrite Nat.add_sub. unfold swap.
  rewrite nth_error_middle.
  replace (length l1 + 1)%nat with (length (l1 ++ [a])) by (rewrite length_app; reflexivity).
  replace (l1 ++ a :: b :: l2) with ((l1 ++ [a]) ++ b :: l2)
    by (rewrite <- app_assoc; reflexivity).
  rewrite nth_error_middle, assign_middle.
  rewrite <- app_assoc. simpl app. rewrite assign_middle. reflexivity.
Qed.

Lemma sameButZIndex_renumberFrom l : forall k,
  Forall2 sameButZIndex l (renumberFrom k l).
Proof.
  induction l as [|a l IH]; intros k; simpl; constructor; [reflexivity|].
  apply IH.
Qed.

Lemma renumberFrom_ext l : forall m k,
  Forall2 sameButZIndex l m -> renumberFrom k l = renumberFrom k m.
Proof.
  induction l as [|a l IH]; intros m k H; inversion H as [|? b ? m' Hab Hrest];
    subst; [reflexivity|].
  simpl. f_equal; [|now apply IH].
  unfold sameButZIndex, withZIndex in *. injection Hab as -> -> -> -> -> -> -> -> ->.
  reflexivity.
Qed.

Lemma findIndex_renumberFrom target l : forall k,
  findIndex (hasId target) (renumberFrom k l) = findIndex (hasId target) l.
Proof.
  induction l as [|a l IH]; intros k; [reflexivity|].
  simpl. change (hasId target (withZIndex a (INR k + 1))) with (hasId target a).
  now rewrite IH.
Qed.

Lemma dense_renumberFrom l : forall k, denseFrom k l -> renumberFrom k l = l.
Proof.
  unfold denseFrom. induction l as [|a l IH]; intros k H; [reflexivity|].
  simpl in *. injection H as Ha Hl. f_equal; [|now apply IH].
  destruct a. unfold withZIndex. simpl in *. now rewrite Ha.
Qed.

(** The layer set between the swap and the renumbering of [reorderLayer]. *)
Lemma reordered_cases target direction prev i :
  findIndex (hasId target) prev = Some i ->
  exists moved,
    reordered target direction prev = Some (renumber moved)
    /\ ((moved = prev
         /\ match direction with
            | Up => i = (length prev - 1)%nat
            | Down => i = 0%nat
            end)
        \/ exists l1 a b l2,
             match direction with
             | Up => prev = l1 ++ a :: b :: l2 /\ moved = l1 ++ b :: a :: l2
                     /\ length l1 = i /\ hasId target a = true
             | Down => prev = l1 ++ b :: a :: l2 /\ moved = l1 ++ a :: b :: l2
                       /\ (length l1 + 1)%nat = i /\ hasId target a = true
             end).
Proof.
  intros H. destruct (findIndex_split _ _ _ H) as (l1 & a & l2 & E & L & Pa & F).
  unfold reordered. rewrite H. destruct direction.
  - destruct (Nat.ltb_spec i (length prev - 1)) as [Lt|Ge].
    + destruct l2 as [|b l2].
      { subst prev. rewrite length_app in Lt. simpl in Lt. lia. }
      exists (l1 ++ b :: a :: l2). split.
      * subst prev i. now rewrite swap_with_next.
      * right. exists l1, a, b, l2. auto.
    + exists prev. split; [reflexivity|]. left. split; [reflexivity|].
      subst prev. rewrite length_app in *. simpl in *. lia.
  - destruct (Nat.ltb_spec 0 i) as [Lt|Ge].
    + destruct (nonempty_snoc l1) as [l0 [c E1]].
      { intros ->. simpl in L. lia. }
      subst l1. rewrite length_app in L. simpl in L.
      exists (l0 ++ a :: c :: l2). split.
      * subst prev i. rewrite <- app_assoc. simpl app.
        now rewrite swap_with_previous.
      * right. exists l0, a, c, l2. subst prev.
        rewrite <- app_assoc. auto.
    + exists prev. split; [reflexivity|]. left. split; [reflexivity | lia].
Qed.

(** [X14] When the target exists, [reorderLayer] loses, duplicates and
    edits no layer: the new layer set is a permutation of the old one in
    which only z-indices differ, and its z-indices are 1..N in array
    order. *)
Theorem reorder_permutes (target : string) (direction : Direction)
  (prev l : list CanvasLayer) :
  reordered target direction prev = Some l ->
  exists moved,
    Permutation prev moved
    /\ Forall2 sameButZIndex moved l
    /\ dense l
    /\ length l = length prev.
Proof.
  intros H.
  destruct (findIndex (hasId target) prev) as [i|] eqn:Hi.
  2: { unfold reordered in H. rewrite Hi in H. discriminate. }
  destruct (reordered_cases target direction prev i Hi) as (moved & R & C).
  rewrite R in H. injection H as <-.
  exists moved. split; [|split; [|split]].
  - destruct C as [[-> _]|(l1 & a & b & l2 & C)]; [reflexivity|].
    destruct direction; destruct C as (-> & -> & _);
      apply Permutation_app_head; constructor.
  - apply sameButZIndex_renumberFrom.
  - apply renumberFrom_dense.
  - unfold renumber. rewrite renumberFrom_length.
    destruct C as [[-> _]|(l1 & a & b & l2 & C)]; [reflexivity|].
    destruct direction; destruct C as (-> & -> & _);
      rewrite !length_app; reflexivity.
Qed.

Lemma reorder_permutes_witness :
  exists moved,
    Permutation (elems (layers threeLayers)) moved
    /\ Forall2 sameButZIndex moved (renumber (swap 0 1 (elems (layers threeLayers))))
    /\ dense (renumber (swap 0 1 (elems (layers threeLayers))))
    /\ length (renumber (swap 0 1 (elems (layers threeLayers))))
       = length (elems (layers threeLayers)).
Proof.
  apply (reorder_permutes "a" Up (elems (layers threeLayers))).
  reflexivity.
Defined.

Lemma renumberFrom_app l m : forall k,
  renumberFrom k (l ++ m)
  = renumberFrom k l ++ renumberFrom (k + length l) m.
Proof.
  induction l as [|a l IH]; intros k; simpl.
  - now rewrite Nat.add_0_r.
  - rewrite IH. replace (S k + length l)%nat with (k + S (length l))%nat by lia.
    reflexivity.
Qed.

Lemma renumberFrom_others target l : forall k,
  Forall (fun b => hasId target b = false) l ->
  Forall (fun b => hasId target b = false) (renumberFrom k l).
Proof.
  induction l as [|a l IH]; intros k H; simpl; [constructor|].
  inversion H; subst. constructor; [assumption | now apply IH].
Qed.

Lemma reordered_up_at target l1 p q l2 :
  Forall (fun b => hasId target b = false) l1 -> hasId target p = true ->
  reordered target Up (l1 ++ p :: q :: l2)
  = Some (renumber (l1 ++ q :: p :: l2)).
Proof.
  intros F Hp. unfold reordered. rewrite (findIndex_app _ l1 p _ F Hp).
  destruct (Nat.ltb_spec (length l1) (length (l1 ++ p :: q :: l2) - 1)) as [_|Ge].
  - now rewrite swap_with_next.
  - rewrite length_app in Ge. simpl in Ge. lia.
Qed.

Lemma reordered_down_at target l1 p q l2 :
  Forall (fun b => hasId target b = false) l1 -> hasId target p = false ->
  hasId target q = true ->
  reordered target Down (l1 ++ p :: q :: l2)
  = Some (renumber (l1 ++ q :: p :: l2)).
Proof.
  intros F Hp Hq. unfold reordered.
  assert (I : findIndex (hasId target) (l1 ++ p :: q :: l2)
              = Some (length l1 + 1)%nat).
  { replace (l1 ++ p :: q :: l2) with ((l1 ++ [p]) ++ q :: l2)
      by (rewrite <- app_assoc; reflexivity).
    rewrite findIndex_app; [now rewrite length_app | | assumption].
    apply Forall_app. split; [assumption | now constructor]. }
  rewrite I.
  destruct (Nat.ltb_spec 0 (length l1 + 1)) as [_|Ge]; [|lia].
  now rewrite swap_with_previous.
Qed.

Lemma distinct_others target l1 a l2 :
  distinctIds (l1 ++ a :: l2) -> hasId target a = true ->
  Forall (fun b => hasId target b = false) l1
  /\ Forall (fun b => hasId target b = false) l2.
Proof.
  unfold distinctIds, hasId. rewrite map_app. simpl. intros N Ha.
  apply String.eqb_eq in Ha. apply NoDup_remove_2 in N.
  split; apply Forall_forall; intros b Hb; apply String.eqb_neq; intros E;
    apply N, in_or_app; [left|right]; rewrite Ha, <- E; now apply in_map.
Qed.

Lemma renumber_swapped l1 p q l2 :
  renumber (l1 ++ q :: p :: l2)
  = renumberFrom 0 l1
    ++ withZIndex q (INR (length l1) + 1)
    :: withZIndex p (INR (S (length l1)) + 1)
    :: renumberFrom (S (S (length l1))) l2.
Proof. unfold renumber. rewrite renumberFrom_app. reflexivity. Qed.

Lemma renumber_back l1 p q l2 (p' q' : R) k :
  renumber (renumberFrom 0 l1 ++ withZIndex p p' :: withZIndex q q'
            :: renumberFrom k l2)
  = renumber (l1 ++ p :: q :: l2).
Proof.
  unfold renumber. symmetry. apply renumberFrom_ext.
  apply Forall2_app; [apply sameButZIndex_renumberFrom|].
  constructor; [reflexivity|]. constructor; [reflexivity|].
  apply sameButZIndex_renumberFrom.
Qed.

(** [X15] In a layer set with distinct ids, moving a layer up and then down
    again, or down and then up again, gives back the order it started
    from: the result is the starting set renumbered, which is the starting
    set itself when its z-indices were already 1..N.  In between, the layer
    sits one place higher, or lower, in the array. *)
Theorem reorder_round_trip (target : string) (prev : list CanvasLayer)
  (i : nat) :
  distinctIds prev ->
  findIndex (hasId target) prev = Some i ->
  ((i + 1 < length prev)%nat ->
   exists l, reordered target Up prev = Some l
             /\ findIndex (hasId target) l = Some (i + 1)%nat
             /\ reordered target Down l = Some (renumber prev))
  /\ ((0 < i)%nat ->
      exists l, reordered target Down prev = Some l
                /\ findIndex (hasId target) l = Some (i - 1)%nat
                /\ reordered target Up l = Some (renumber prev))
  /\ (dense prev -> renumber prev = prev).
Proof.
  intros D H.
  destruct (findIndex_split _ _ _ H) as (l1 & a & l2 & E & L & Pa & F).
  split; [|split].
  - intros Lt. destruct l2 as [|b l2].
    { subst prev. rewrite length_app in Lt. simpl in Lt. lia. }
    subst prev i.
    destruct (distinct_others target l1 a (b :: l2) D Pa) as [_ F2].
    inversion F2 as [|? ? Hb F3]; subst.
    exists (renumber (l1 ++ b :: a :: l2)). split; [|split].
    + now apply reordered_up_at.
    + unfold renumber. rewrite findIndex_renumberFrom.
      replace (l1 ++ b :: a :: l2) with ((l1 ++ [b]) ++ a :: l2)
        by (rewrite <- app_assoc; reflexivity).
      rewrite findIndex_app; [now rewrite length_app | | assumption].
      apply Forall_app. split; [assumption | now constructor].
    + rewrite renumber_swapped.
      rewrite <- (renumberFrom_length l1 0) at 1.
      rewrite reordered_down_at;
        [ | now apply renumberFrom_others | exact Hb | exact Pa].
      f_equal. apply renumber_back.
  - intros Lt. destruct (nonempty_snoc l1) as [l0 [c E1]].
    { intros ->. simpl in L. lia. }
    subst l1 prev i. rewrite <- app_assoc in *. simpl app in *.
    apply Forall_app in F. destruct F as [F0 Fc].
    inversion Fc as [|? ? Hc _]; subst.
    exists (renumber (l0 ++ a :: c :: l2)). split; [|split].
    + now apply reordered_down_at.
    + unfold renumber. rewrite findIndex_renumberFrom.
      rewrite findIndex_app by assumption.
      f_equal. rewrite length_app. simpl. lia.
    + rewrite renumber_swapped.
      rewrite <- (renumberFrom_length l0 0) at 1.
      rewrite reordered_up_at; [ | now apply renumberFrom_others | exact Pa].
      f_equal. apply renumber_back.
  - apply dense_renumberFrom.
Qed.

Lemma reorder_round_trip_witness :
  exists l, reordered "a" Up (elems (layers threeLayers)) = Some l
            /\ findIndex (hasId "a") l = Some (0 + 1)%nat
            /\ reordered "a" Down l = Some (renumber (elems (layers threeLayers))).
Proof.
  assert (D : distinctIds (elems (layers threeLayers))).
  { unfold distinctIds. simpl. repeat constructor; simpl; intuition discriminate. }
  destruct (reorder_round_trip "a" (elems (layers threeLayers)) 0 D eq_refl)
    as [U _].
  apply U. simpl. lia.
Defined.

Lemma reorderLayer_layers target d s :
  match reordered target d (elems (layers s)) with
  | Some l => elems (layers (reorderLayer target d s)) = l
              /\ addr (layers (reorderLayer target d s)) = nextAddr s
  | None => layers (reorderLayer target d s) = layers s
  end.
Proof.
  unfold reorderLayer. simpl.
  destruct (reordered target d (elems (layers s))); [split|]; reflexivity.
Qed.

(** [X16] A reorder that moves nothing still costs an undo step.  With an
    id no layer has, the layer array stays the very same object; with the
    top layer moved up or the bottom layer moved down, a new array is set
    whose layers are the old ones renumbered, and equal to the old ones if
    their z-indices were 1..N.  In each case the old array is recorded in
    the history. *)
Theorem reorder_noop_still_records (target : string) (d : Direction)
  (s : AppState) :
  canvasHistory (reorderLayer target d s)
  = History.recordState (layers s) (canvasHistory s)
  /\ (findIndex (hasId target) (elems (layers s)) = None ->
      layers (reorderLayer target d s) = layers s)
  /\ (forall i, findIndex (hasId target) (elems (layers s)) = Some i ->
      match d with
      | Up => i = (length (elems (layers s)) - 1)%nat
      | Down => i = 0%nat
      end ->
      elems (layers (reorderLayer target d s)) = renumber (elems (layers s))
      /\ (dense (elems (layers s)) ->
          elems (layers (reorderLayer target d s)) = elems (layers s))).
Proof.
  split; [|split].
  - unfold reorderLayer. destruct (reordered _ _ _); reflexivity.
  - intros H. pose proof (reorderLayer_layers target d s) as R.
    unfold reordered in R. rewrite H in R. exact R.
  - intros i H Hi. pose proof (reorderLayer_layers target d s) as R.
    assert (E : reordered target d (elems (layers s))
                = Some (renumber (elems (layers s)))).
    { unfold reordered. rewrite H. destruct d; subst i.
      - now rewrite Nat.ltb_irrefl.
      - reflexivity. }
    rewrite E in R. destruct R as [R _]. split; [exact R|].
    intros D. rewrite R. now apply dense_renumberFrom.
Qed.

Lemma reorder_noop_still_records_witness :
  elems (layers (reorderLayer "c" Up threeLayers))
  = renumber (elems (layers threeLayers))
  /\ (dense (elems (layers threeLayers)) ->
      elems (layers (reorderLayer "c" Up threeLayers))
      = elems (layers threeLayers)).
Proof.
  destruct (reorder_noop_still_records "c" Up threeLayers) as (_ & _ & H).
  apply (H 2%nat); reflexivity.
Defined.

(** ** Removing and centering *)

Lemma removeLayer_elems target s :
  elems (layers (removeLayer target s))
  = filter (fun l => negb (hasId target l)) (elems (layers s)).
Proof.
  unfold removeLayer. destruct (selectedLayerId s) as [sel|]; [|reflexivity].
  destruct (sel =? target)%string; reflexivity.
Qed.

Lemma filter_all {A : Type} (p : A -> bool) (l : list A) :
  Forall (fun a => p a = true) l -> filter p l = l.
Proof.
  induction 1 as [|a l Ha _ IH]; simpl; [reflexivity|].
  now rewrite Ha, IH.
Qed.

(** [X17] After [removeLayer] no layer has the removed id, every other
    layer is still there, untouched and in the same order, and the
    selection does not name the removed id: it is cleared (set to null) if
    it did and kept otherwise.  An asset just added to a set in which no layer has its
    id is taken out again by removing that id. *)
Theorem removeLayer_removes (target : string) (s : AppState)
  (img : LoadedImage) :
  existsb (hasId target) (elems (layers (removeLayer target s))) = false
  /\ elems (layers (removeLayer target s))
     = filter (fun l => negb (hasId target l)) (elems (layers s))
  /\ (forall l, In l (elems (layers (removeLayer target s)))
                <-> In l (elems (layers s)) /\ id l <> target)
  /\ selectedLayerId (removeLayer target s) <> Some target
  /\ (selectedLayerId s <> Some target ->
      selectedLayerId (removeLayer target s) = selectedLayerId s)
  /\ (existsb (hasId (newId img)) (elems (layers s)) = false ->
      elems (layers (removeLayer (newId img) (imageLoaded img s)))
      = elems (layers s))
  /\ (selectedLayerId s = Some target ->
      selectedLayerId (removeLayer target s) = None).
Proof.
  split; [|split; [|split; [|split; [|split; [|split]]]]].
  - rewrite removeLayer_elems.
    induction (elems (layers s)) as [|a l IH]; [reflexivity|].
    simpl. destruct (hasId target a) eqn:H; simpl; [exact IH|].
    now rewrite H.
  - apply removeLayer_elems.
  - intros l. rewrite removeLayer_elems, filter_In. unfold hasId.
    split; intros [H1 H2]; split; auto.
    + apply negb_true_iff in H2. now apply String.eqb_neq.
    + apply negb_true_iff. now apply String.eqb_neq.
  - unfold removeLayer. destruct (selectedLayerId s) as [sel|] eqn:Hsel.
    + destruct (String.eqb_spec sel target) as [E|N]; simpl.
      * discriminate.
      * rewrite Hsel. congruence.
    + simpl. rewrite Hsel. discriminate.
  - intros H. unfold removeLayer. destruct (selectedLayerId s) as [sel|] eqn:Hsel.
    + destruct (String.eqb_spec sel target) as [E|N]; simpl; [congruence|].
      exact Hsel.
    + simpl. exact Hsel.
  - intros H. rewrite removeLayer_elems. simpl. rewrite filter_app. simpl.
    unfold hasId at 2. simpl. rewrite String.eqb_refl. simpl.
    rewrite app_nil_r. apply filter_all.
    apply Forall_forall. intros l Hl. apply negb_true_iff.
    destruct (hasId (newId img) l) eqn:E; [|reflexivity].
    assert (X : existsb (hasId (newId img)) (elems (layers s)) = true)
      by (apply existsb_exists; eauto).
    congruence.
  - intros H. unfold removeLayer. rewrite H, String.eqb_refl. reflexivity.
Qed.

Lemma find_map_preserving (p : CanvasLayer -> bool)
  (f : CanvasLayer -> CanvasLayer) (l : list CanvasLayer) :
  (forall a, p (f a) = p a) ->
  find p (map f l) = option_map f (find p l).
Proof.
  intros H. induction l as [|a l IH]; [reflexivity|].
  simpl. rewrite H. destruct (p a); [reflexivity | exact IH].
Qed.

(** [X18] [centerLayer] on an id some layer has puts the first layer with
    that id so that the centre of its footprint is the centre of the canvas,
    changes nothing but [x] and [y], and leaves the layers with other ids as
    they were; on an id no layer has it leaves the layer array the same
    object. *)
Theorem centerLayer_centres (target : string) (s : AppState) :
  (forall l, find (hasId target) (elems (layers s)) = Some l ->
     (exists l',
         find (hasId target) (elems (layers (centerLayer target s))) = Some l'
         /\ sameButPosition l l'
         /\ x l' + footprintWidth l' / 2 = CANVAS_SIZE / 2
         /\ y l' + footprintHeight l' / 2 = CANVAS_SIZE / 2)
     /\ Forall2 (fun a a' => if hasId target a then sameButPosition a a'
                             else a' = a)
          (elems (layers s)) (elems (layers (centerLayer target s))))
  /\ (find (hasId target) (elems (layers s)) = None ->
      layers (centerLayer target s) = layers s).
Proof.
  split.
  - intros l H. unfold centerLayer. rewrite H. simpl. split.
    + rewrite find_map_preserving.
      * rewrite H. simpl. eexists. split; [reflexivity|].
        apply find_some in H. destruct H as [_ Hl]. rewrite Hl.
        split; [repeat split|].
        unfold footprintWidth, footprintHeight. simpl. split; lra.
      * intros a. destruct (hasId target a) eqn:E; [|exact E]. exact E.
    + apply Forall2_map_same. intros a _.
      destruct (hasId target a); [repeat split | reflexivity].
  - intros H. unfold centerLayer. rewrite H. reflexivity.
Qed.

Lemma centerLayer_centres_witness :
  exists l',
    find (hasId "a") (elems (layers (centerLayer "a" (mounted [square100]))))
    = Some l'
    /\ sameButPosition square100 l'
    /\ x l' + footprintWidth l' / 2 = CANVAS_SIZE / 2
    /\ y l' + footprintHeight l' / 2 = CANVAS_SIZE / 2.
Proof.
  destruct (centerLayer_centres "a" (mounted [square100])) as [H _].
  apply (H square100). reflexivity.
Defined.

(** ** Adding assets *)

Lemma imagesLoaded_elems imgs : forall s,
  exists added,
    elems (layers (fold_left (fun acc img => imageLoaded img acc) imgs s))
    = elems (layers s) ++ added
    /\ map id added = map newId imgs
    /\ (dense (elems (layers s)) -> dense (elems (layers s) ++ added)).
Proof.
  induction imgs as [|img imgs IH]; intros s.
  - exists []. simpl. rewrite app_nil_r. auto.
  - simpl. destruct (IH (imageLoaded img s)) as (added & E & I & D).
    exists (newLayerOf img (elems (layers s)) :: added).
    simpl in E, D. rewrite <- app_assoc in E, D. simpl in E, D.
    split; [exact E|]. split; [simpl; now rewrite I|].
    intros H. apply D. now apply imageLoaded_dense.
Qed.

Lemma last_default {A : Type} (l : list A) : forall a d d',
  last (a :: l) d = last (a :: l) d'.
Proof.
  induction l as [|b l IH]; intros a d d'; [reflexivity|].
  change (last (b :: l) d = last (b :: l) d'). apply IH.
Qed.

Lemma imagesLoaded_selection imgs : forall s,
  selectedLayerId (fold_left (fun acc img => imageLoaded img acc) imgs s)
  = match imgs with
    | [] => selectedLayerId s
    | first :: _ => Some (newId (last imgs first))
    end.
Proof.
  induction imgs as [|img imgs IH]; intros s; [reflexivity|].
  simpl fold_left. rewrite IH. destruct imgs as [|img2 imgs]; [reflexivity|].
  change (last (img :: img2 :: imgs) img) with (last (img2 :: imgs) img).
  now rewrite (last_default imgs img2 img2 img).
Qed.

(** [X19] Adding assets keeps the layers that were there, as they were and
    first in the array, and appends one layer per loaded image in the order
    in which the loads complete, each with the id drawn for it; the image
    whose load completes last ends up selected; and if the z-indices were
    1..N before, they are 1..N afterwards. *)
Theorem add_assets_appends (imgs : list LoadedImage) (s : AppState) :
  exists added,
    elems (layers (handleFileChange (Some imgs) s)) = elems (layers s) ++ added
    /\ map id added = map newId imgs
    /\ (dense (elems (layers s)) ->
        dense (elems (layers (handleFileChange (Some imgs) s))))
    /\ selectedLayerId (handleFileChange (Some imgs) s)
       = match imgs with
         | [] => selectedLayerId s
         | first :: _ => Some (newId (last imgs first))
         end.
Proof.
  unfold handleFileChange.
  destruct (imagesLoaded_elems imgs (App.recordState (layers s) s))
    as (added & E & I & D).
  exists added. simpl in E, D. split; [exact E|]. split; [exact I|].
  split; [intros H; rewrite E; now apply D|].
  now rewrite imagesLoaded_selection.
Qed.

(** [X20] A new layer for an image with positive natural width and height
    is scaled by a factor in (0, 1] so that neither side of its footprint
    exceeds 250, and it lies inside the canvas: between 155 and 445 on both
    axes. *)
Theorem new_layer_inside_canvas (img : LoadedImage)
  (prev : list CanvasLayer) :
  0 < width img -> 0 < height img ->
  0 <= randomX img < 1 -> 0 <= randomY img < 1 ->
  let l := newLayerOf img prev in
  0 < scale l <= 1
  /\ 0 < footprintWidth l <= 250
  /\ 0 < footprintHeight l <= 250
  /\ 155 <= x l /\ x l + footprintWidth l < 445
  /\ 155 <= y l /\ y l + footprintHeight l < 445.
Proof.
  intros Hw Hh Hx Hy l.
  set (m := Rmax (width img) (height img)).
  assert (Wm : width img <= m) by apply Rmax_l.
  assert (Hm : height img <= m) by apply Rmax_r.
  assert (Pm : 0 < m) by lra.
  set (q := 250 / m).
  assert (Pq : 0 < q) by (unfold q; apply Rdiv_lt_0_compat; lra).
  assert (Qm : q * m = 250) by (unfold q; field; lra).
  assert (Sc : scale l = Rmin 1 q).
  { subst l. simpl. unfold initialScaleOf. fold m.
    destruct (Req_dec_T m 0) as [Z|_]; [lra | reflexivity]. }
  assert (S1 : 0 < scale l <= 1).
  { rewrite Sc. unfold Rmin. destruct (Rle_dec 1 q); lra. }
  assert (S2 : scale l * m <= 250).
  { rewrite Sc. unfold Rmin. destruct (Rle_dec 1 q); nra. }
  assert (Fw : 0 < footprintWidth l <= 250).
  { unfold footprintWidth. change (originalWidth l) with (width img). nra. }
  assert (Fh : 0 < footprintHeight l <= 250).
  { unfold footprintHeight. change (originalHeight l) with (height img). nra. }
  assert (Ex : x l = CANVAS_SIZE / 2 - footprintWidth l / 2
                     + (randomX img - 0.5) * 40) by reflexivity.
  assert (Ey : y l = CANVAS_SIZE / 2 - footprintHeight l / 2
                     + (randomY img - 0.5) * 40) by reflexivity.
  unfold CANVAS_SIZE in *. repeat split; lra.
Qed.

Lemma new_layer_inside_canvas_witness :
  0 < scale (newLayerOf (mkImage "data:," 4000 3000 0 0.9 "big") []) <= 1
  /\ 0 < footprintWidth (newLayerOf (mkImage "data:," 4000 3000 0 0.9 "big") [])
     <= 250.
Proof.
  assert (Hw : 0 < 4000) by lra. assert (Hh : 0 < 3000) by lra.
  assert (Hx : 0 <= 0 < 1) by lra. assert (Hy : 0 <= 0.9 < 1) by lra.
  destruct (new_layer_inside_canvas (mkImage "data:," 4000 3000 0 0.9 "big") []
              Hw Hh Hx Hy) as (A & B & _).
  split; assumption.
Defined.

(** ** Compositing *)

Lemma drawCall_centred layer :
  drawX (drawCallOf layer) + drawWidth (drawCallOf layer) / 2 = 0
  /\ drawY (drawCallOf layer) + drawHeight (drawCallOf layer) / 2 = 0.
Proof. simpl. unfold OUTPUT_SIZE, CANVAS_SIZE. split; field. Qed.

Lemma drawCall_unrotated layer :
  rotation layer = 0 -> angle (drawCallOf layer) = 0.
Proof. intros H. simpl. rewrite H. field. Qed.

(** [X21] [renderCanvasToImage] draws the layers in array order.  Each
    image is drawn centred on the translated origin, so a rotation turns it
    about the centre of its footprint, which lands at the footprint centre
    scaled by 1024/600; an unrotated layer covers exactly its footprint
    scaled by 1024/600, and therefore stays inside the 1024 x 1024 output
    when its footprint is inside the canvas. *)
Theorem composite_geometry (s : AppState) (layer : CanvasLayer) :
  let c := drawCallOf layer in
  let ratio := OUTPUT_SIZE / CANVAS_SIZE in
  map source (renderCanvasToImage s) = map url (elems (layers s))
  /\ placed c (drawX c + drawWidth c / 2) (drawY c + drawHeight c / 2)
     = ((x layer + footprintWidth layer / 2) * ratio,
        (y layer + footprintHeight layer / 2) * ratio)
  /\ (rotation layer = 0 ->
      placed c (drawX c) (drawY c) = (x layer * ratio, y layer * ratio)
      /\ placed c (drawX c + drawWidth c) (drawY c + drawHeight c)
         = ((x layer + footprintWidth layer) * ratio,
            (y layer + footprintHeight layer) * ratio))
  /\ (rotation layer = 0 ->
      0 <= x layer -> x layer + footprintWidth layer <= CANVAS_SIZE ->
      0 <= fst (placed c (drawX c) (drawY c))
      /\ fst (placed c (drawX c + drawWidth c) (drawY c + drawHeight c))
         <= OUTPUT_SIZE)
  /\ (rotation layer = 0 ->
      0 <= y layer -> y layer + footprintHeight layer <= CANVAS_SIZE ->
      0 <= snd (placed c (drawX c) (drawY c))
      /\ snd (placed c (drawX c + drawWidth c) (drawY c + drawHeight c))
         <= OUTPUT_SIZE).
Proof.
  intros c ratio. split; [|split; [|split; [|split]]].
  - unfold renderCanvasToImage. rewrite map_map. reflexivity.
  - destruct (drawCall_centred layer) as [U V]. fold c in U, V.
    rewrite U, V. unfold placed. f_equal; simpl; unfold footprintWidth,
      footprintHeight; fold ratio; ring.
  - intros H. pose proof (drawCall_unrotated layer H) as A. fold c in A.
    unfold placed. rewrite A, cos_0, sin_0.
    split; f_equal; simpl; unfold footprintWidth, footprintHeight, ratio,
      OUTPUT_SIZE, CANVAS_SIZE; field.
  - intros H Lo Hi. pose proof (drawCall_unrotated layer H) as A. fold c in A.
    unfold placed. rewrite A, cos_0, sin_0. simpl.
    unfold footprintWidth, OUTPUT_SIZE, CANVAS_SIZE in *. split; lra.
  - intros H Lo Hi. pose proof (drawCall_unrotated layer H) as A. fold c in A.
    unfold placed. rewrite A, cos_0, sin_0. simpl.
    unfold footprintHeight, OUTPUT_SIZE, CANVAS_SIZE in *. split; lra.
Qed.

Lemma composite_geometry_witness :
  placed (drawCallOf square100) (drawX (drawCallOf square100))
    (drawY (drawCallOf square100))
  = (x square100 * (OUTPUT_SIZE / CANVAS_SIZE),
     y square100 * (OUTPUT_SIZE / CANVAS_SIZE)).
Proof.
  destruct (composite_geometry (mounted [square100]) square100)
    as (_ & _ & H & _).
  apply H. reflexivity.
Defined.

(** ** The layer panel *)

Lemma mapIndexed_app {T U : Type} (f : T -> nat -> U) l1 l2 : forall k,
  mapIndexed f k (l1 ++ l2)
  = mapIndexed f k l1 ++ mapIndexed f (k + length l1) l2.
Proof.
  induction l1 as [|a l1 IH]; intros k; simpl.
  - now rewrite Nat.add_0_r.
  - rewrite IH. replace (S k + length l1)%nat with (k + S (length l1))%nat by lia.
    reflexivity.
Qed.

Lemma mapIndexed_rev {T U : Type} (f : T -> nat -> U) (n : nat) l : forall k,
  (k + length l <= n)%nat ->
  mapIndexed (fun a index => f a (n - index)%nat) k (rev l)
  = rev (mapIndexed (fun a index => f a (S index)) (n - k - length l) l).
Proof.
  induction l as [|a l IH]; intros k H; [reflexivity|].
  simpl in *. rewrite mapIndexed_app, IH by lia. simpl.
  rewrite length_rev.
  replace (S (n - k - S (length l))) with (n - k - length l)%nat by lia.
  replace (n - (k + length l))%nat with (n - k - length l)%nat by lia.
  reflexivity.
Qed.

Lemma mapIndexed_labels sel l : forall k,
  denseFrom k l ->
  Forall (fun row => INR (rowLabel row) = zIndex (rowLayer row))
    (mapIndexed (fun a index => mkRow a (S index) (isSelectedId sel a)) k l).
Proof.
  unfold denseFrom. induction l as [|a l IH]; intros k H; simpl; constructor.
  - simpl in *. injection H as Ha _. rewrite Ha.
    destruct k; [simpl; lra | reflexivity].
  - apply IH. simpl in H. now injection H.
Qed.

(** [X22] The panel renders nothing for an empty layer set.  Otherwise it
    has one row per layer, the top-most layer first, and the number in the
    label of a row is the 1-based position of its layer in the array; it is
    the layer's z-index when the z-indices are 1..N.  The reorder buttons
    are shown on the rows whose layer has the selected id. *)
Theorem layer_panel_rows (layers : list CanvasLayer) (sel : option string) :
  (LayerPanel layers sel = None <-> layers = [])
  /\ (forall rows, LayerPanel layers sel = Some rows ->
      rows = rev (mapIndexed
                    (fun layer index =>
                       mkRow layer (S index) (isSelectedId sel layer))
                    0 layers)
      /\ map rowLayer rows = rev layers
      /\ map rowLabel rows = rev (seq 1 (length layers))
      /\ (dense layers ->
          Forall (fun row => INR (rowLabel row) = zIndex (rowLayer row)) rows)).
Proof.
  unfold LayerPanel. split.
  - destruct layers; simpl; split; intros H; try reflexivity; discriminate.
  - intros rows H. destruct (Nat.eqb_spec (length layers) 0) as [|N];
      [discriminate|]. injection H as <-.
    pose proof (mapIndexed_rev
                  (fun a i => mkRow a i (isSelectedId sel a))
                  (length layers) layers 0 (Nat.le_refl _)) as E.
    simpl in E. rewrite Nat.sub_0_r, Nat.sub_diag in E. rewrite E.
    split; [reflexivity|]. split; [|split].
    + rewrite map_rev. f_equal. clear. generalize 0%nat.
      induction layers as [|a l IH]; intros k; simpl; [reflexivity|].
      now rewrite IH.
    + rewrite map_rev. f_equal. clear. generalize 0%nat.
      induction layers as [|a l IH]; intros k; simpl; [reflexivity|].
      now rewrite IH.
    + intros D. apply Forall_rev. now apply mapIndexed_labels.
Qed.

Lemma layer_panel_rows_witness :
  map rowLabel
    (mapIndexed
       (fun layer index =>
          mkRow layer (length [atOrigin; beside] - index)
            (isSelectedId (Some "b"%string) layer))
       0 (rev [atOrigin; beside]))
  = rev (seq 1 (length [atOrigin; beside])).
Proof.
  destruct (layer_panel_rows [atOrigin; beside] (Some "b"%string)) as [_ H].
  destruct (H _ eq_refl) as (_ & _ & L & _). exact L.
Defined.

(** ** Slider updates *)

Lemma updateLayer_elems target updates s :
  elems (layers (updateLayer target updates s))
  = map (fun l => if hasId target l then merge l updates else l)
        (elems (layers s)).
Proof. reflexivity. Qed.

(** [X23] The two sliders act independently: setting the scale and setting
    the rotation of a layer give the same layer set in either order; of two
    settings of the same slider the later one wins; each changes only its
    own field, and only in the layers with the given id; and neither
    records anything in the history. *)
Theorem slider_updates_commute (target : string) (a a' b : R)
  (s : AppState) :
  elems (layers (updateLayer target (rotationUpdate b)
                   (updateLayer target (scaleUpdate a) s)))
  = elems (layers (updateLayer target (scaleUpdate a)
                     (updateLayer target (rotationUpdate b) s)))
  /\ elems (layers (updateLayer target (scaleUpdate a')
                      (updateLayer target (scaleUpdate a) s)))
     = elems (layers (updateLayer target (scaleUpdate a') s))
  /\ Forall2 (fun l l' => if hasId target l then l' = withScale l a
                          else l' = l)
       (elems (layers s)) (elems (layers (updateLayer target (scaleUpdate a) s)))
  /\ canvasHistory (updateLayer target (scaleUpdate a) s) = canvasHistory s
  /\ canvasHistory (updateLayer target (rotationUpdate b) s) = canvasHistory s.
Proof.
  split; [|split; [|split; [|split]]]; try reflexivity.
  - rewrite !updateLayer_elems, !map_map. apply map_ext. intros l.
    destruct (hasId target l) eqn:H.
    + change (hasId target (merge l (scaleUpdate a))) with (hasId target l).
      change (hasId target (merge l (rotationUpdate b))) with (hasId target l).
      rewrite H. reflexivity.
    + rewrite H. reflexivity.
  - rewrite !updateLayer_elems, !map_map. apply map_ext. intros l.
    destruct (hasId target l) eqn:H.
    + change (hasId target (merge l (scaleUpdate a))) with (hasId target l).
      rewrite H. reflexivity.
    + rewrite H. reflexivity.
  - rewrite updateLayer_elems. apply Forall2_map_same. intros l _.
    destruct (hasId target l); reflexivity.
Qed.

End CanvasLaws.
